(** * prayer-go: prayer-time acquisition, ordering and next-event scheduling

    A shallow embedding of [prayer.go] and the properties of its core:
    the timings cache ([DownloadTimings]), the schedule parser
    ([FilterPrayers], [MapToPrayers], [PrayerTimings]), the prayer clock
    ([NextPrayer]) and the timer callback of [guiMain].

    Conventions of the embedding:
    - a Go [panic] is an explicit outcome [Panic e], where [e] records the
      source site that panicked;
    - a Go [map] is a [gmap]; the order in which [range] visits it is an
      argument (any enumeration of the entries, each exactly once);
    - the file system, the network, the clock and the notification sinks
      are fields of an explicit [World], threaded by a small monad;
    - [time.Time] is an instant (nanoseconds since the Unix epoch) together
      with the UTC offset of its location: locations are fixed zones. *)

From Stdlib Require Import ZArith Lia Ascii String DecimalString Permutation Sorted.
From stdpp Require Import gmap strings list fin_maps sorting.

Local Open Scope Z_scope.

(** ** Outcomes of code that may panic *)

(** The sites of [prayer.go] that can panic. *)
Inductive panic : Type :=
  | HttpGetFailed          (* DownloadTimings: http.Get returned an error *)
  | CreateFailed           (* DownloadTimings: os.Create returned an error *)
  | OpenFailed             (* PrayerTimings: os.Open returned an error *)
  | JsonError              (* PrayerTimings: json.Unmarshal returned an error *)
  | DayIndexOutOfRange     (* PrayerTimings: jsonMap.Data[today-1] *)
  | TypeAssertionFailed    (* x.(T) on a value of another dynamic type *)
  | TimeParseFailed        (* MapToPrayers: time.Parse returned an error *)
  | SliceIndexOutOfRange   (* prayers[i] outside the slice *)
  | StringIndexOutOfRange. (* Name[0] on the empty string *)

Inductive result (A : Type) : Type :=
  | Ok (a : A)
  | Panic (e : panic).
Arguments Ok {A} a.
Arguments Panic {A} e.

(** [result] is a monad; stdpp's notation [x ← c; k] binds in it. *)
#[global] Instance result_ret : MRet result := fun A a => Ok a.
#[global] Instance result_bind : MBind result := fun A B k r =>
  match r with
  | Ok a => k a
  | Panic e => Panic e
  end.

Definition is_Ok {A} (r : result A) : Prop := exists a, r = Ok a.
Definition is_Panic {A} (r : result A) : Prop := exists e, r = Panic e.

(** [for _, x := range xs { acc = f(acc, x) }] where the body may panic. *)
Fixpoint foldRange {A B} (f : A -> B -> result A) (acc : A) (xs : list B)
  : result A :=
  match xs with
  | [] => Ok acc
  | x :: xs' => acc' ← f acc x; foldRange f acc' xs'
  end.

(** ** Strings as byte sequences *)

Definition isDigit (c : ascii) : bool :=
  (48 <=? Z.of_nat (nat_of_ascii c)) && (Z.of_nat (nat_of_ascii c) <=? 57).

Definition digitVal (c : ascii) : Z := Z.of_nat (nat_of_ascii c) - 48.

(** [strings.IndexByte]: index of the first [c] in [s], or [-1]. *)
Fixpoint IndexByte (s : string) (c : ascii) : Z :=
  match s with
  | EmptyString => -1
  | String a s' =>
      if Ascii.eqb a c then 0
      else let r := IndexByte s' c in if r <? 0 then -1 else r + 1
  end.

(** [s[0]], which panics on the empty string. *)
Definition byteAt0 (s : string) : result ascii :=
  match s with
  | EmptyString => Panic StringIndexOutOfRange
  | String a _ => Ok a
  end.

(** Decimal rendering of an integer, as [%v] prints an [int]. *)
Definition fmtInt (x : Z) : string := NilZero.string_of_int (Z.to_int x).

Fixpoint zeros (n : nat) : string :=
  match n with
  | O => ""
  | S n' => String "0" (zeros n')
  end.

(** [appendInt] of package time: sign, then the digits of [|x|] padded
    with zeros to [width]. *)
Definition appendInt (x : Z) (width : nat) : string :=
  let digits := NilZero.string_of_uint (N.to_uint (Z.to_N (Z.abs x))) in
  let sign := if x <? 0 then "-" else "" in
  (sign ++ zeros (width - String.length digits) ++ digits)%string.

(** ** Package time *)

Module GoTime.

(** A [time.Time]: [nanos] is the instant, in nanoseconds since
    1970-01-01T00:00:00Z; [offset] is the UTC offset, in seconds, of the
    location the time is presented in. *)
Record Time : Type := mkTime { nanos : Z; offset : Z }.

(** [time.Duration] is an [int64] count of nanoseconds. *)
Definition Duration : Type := Z.
Definition Nanosecond : Duration := 1.
Definition Second : Duration := 1000000000.
Definition Minute : Duration := 60 * Second.
Definition Hour : Duration := 60 * Minute.
Definition minDuration : Duration := - 2 ^ 63.
Definition maxDuration : Duration := 2 ^ 63 - 1.

(** [t.Before(u)] compares instants. *)
Definition Before (t u : Time) : bool := nanos t <? nanos u.

(** [t.Sub(u)]: the difference of the instants, saturated to the range
    of [Duration]. *)
Definition Sub (t u : Time) : Duration :=
  let d := nanos t - nanos u in
  if d <? minDuration then minDuration
  else if maxDuration <? d then maxDuration
  else d.

(** [lessThanHalf x y]: [x + x < y], computed on [uint64]. *)
Definition lessThanHalf (x y : Duration) : bool :=
  ((x mod 2 ^ 64) + (x mod 2 ^ 64)) mod 2 ^ 64 <? y mod 2 ^ 64.

(** [d.Round(m)]: the nearest multiple of [m], halves away from zero;
    [Z.rem] is Go's [%]. *)
Definition Round (d m : Duration) : Duration :=
  if m <=? 0 then d
  else
    let r := Z.rem d m in
    if d <? 0 then
      let r := - r in
      if lessThanHalf r m then d + r
      else
        let d1 := d - m + r in
        if minDuration <=? d1 then d1 else minDuration
    else
      if lessThanHalf r m then d - r
      else
        let d1 := d + m - r in
        if d1 <=? maxDuration then d1 else maxDuration.

(** *** The calendar *)

Definition isLeap (year : Z) : bool :=
  (year mod 4 =? 0) && (negb (year mod 100 =? 0) || (year mod 400 =? 0)).

(** [daysBefore[m]]: days in a non-leap year before month [m+1]. *)
Definition daysBefore (m : Z) : Z :=
  match m with
  | 0 => 0 | 1 => 31 | 2 => 59 | 3 => 90 | 4 => 120 | 5 => 151
  | 6 => 181 | 7 => 212 | 8 => 243 | 9 => 273 | 10 => 304 | 11 => 334
  | _ => 365
  end.

(** Days from 0001-01-01 to the first of January of [year]. *)
Definition daysBeforeYear (year : Z) : Z :=
  let y := year - 1 in
  365 * y + y / 4 - y / 100 + y / 400.

Definition daysPer400Years : Z := 146097.
Definition daysPer100Years : Z := 36524.
Definition daysPer4Years : Z := 1461.

(** Days from 0001-01-01 to 1970-01-01. *)
Definition unixEpochDays : Z := 719162.

Definition secondsPerDay : Z := 86400.

(** Days from 0001-01-01 to the first of [month] (1..12) of [year]. *)
Definition daysBeforeMonth (year month : Z) : Z :=
  daysBeforeYear year + daysBefore (month - 1)
  + (if isLeap year && (3 <=? month) then 1 else 0).

(** [time.Date(year, month, day, hour, min, sec, nsec, loc)]. Months
    outside 1..12 carry into the year; the other fields enter the instant
    linearly, which is what normalising them one into the next computes. *)
Definition Date (year month day hour min sec nsec : Z) (loc : Z) : Time :=
  let m := month - 1 in
  let year := year + m / 12 in
  let month := m mod 12 + 1 in
  let d := daysBeforeMonth year month + (day - 1) - unixEpochDays in
  let unix := d * secondsPerDay + hour * 3600 + min * 60 + sec - loc in
  mkTime (unix * 1000000000 + nsec) loc.

(** Seconds since 0001-01-01T00:00:00 on the clock of [t]'s location. *)
Definition absSec (t : Time) : Z :=
  nanos t / 1000000000 + offset t + unixEpochDays * secondsPerDay.

Definition nsecOf (t : Time) : Z := nanos t mod 1000000000.

(** Year (and day within it, from 0) of the day number [d], counted from
    0001-01-01: cycles of 400, 100, 4 and 1 years. *)
Definition yearOfDays (d : Z) : Z * Z :=
  let n400 := d / daysPer400Years in
  let d := d - daysPer400Years * n400 in
  let n100 := d / daysPer100Years in
  let n100 := n100 - n100 / 4 in
  let d := d - daysPer100Years * n100 in
  let n4 := d / daysPer4Years in
  let d := d - daysPer4Years * n4 in
  let n := d / 365 in
  let n := n - n / 4 in
  let d := d - 365 * n in
  (400 * n400 + 100 * n100 + 4 * n4 + n + 1, d).

(** Month (1..12) and day of the month of day [yday] of [year]. *)
Definition monthOfYday (year yday : Z) : Z * Z :=
  if isLeap year && (yday =? 31 + 29 - 1) then (2, 29)
  else
    let day := if isLeap year && (31 + 29 - 1 <? yday) then yday - 1 else yday in
    let month := day / 31 in
    let e := daysBefore (month + 1) in
    if e <=? day then (month + 2, day - e + 1)
    else (month + 1, day - daysBefore month + 1).

(** [t.Date()]. *)
Definition dateOf (t : Time) : Z * Z * Z :=
  let '(year, yday) := yearOfDays (absSec t / secondsPerDay) in
  let '(month, day) := monthOfYday year yday in
  (year, month, day).

Definition Year (t : Time) : Z := let '(y, _, _) := dateOf t in y.
Definition Month (t : Time) : Z := let '(_, m, _) := dateOf t in m.
Definition Day (t : Time) : Z := let '(_, _, d) := dateOf t in d.

(** [t.Clock()]. *)
Definition clockOf (t : Time) : Z * Z * Z :=
  let s := absSec t mod secondsPerDay in
  (s / 3600, (s mod 3600) / 60, s mod 60).

(** [t.AddDate(years, months, days)]. *)
Definition AddDate (t : Time) (years months days : Z) : Time :=
  let '(year, month, day) := dateOf t in
  let '(hour, min, sec) := clockOf t in
  Date (year + years) (month + months) (day + days) hour min sec
       (nsecOf t) (offset t).

(** [t.Format(time.DateOnly)], layout ["2006-01-02"]. *)
Definition FormatDateOnly (t : Time) : string :=
  let '(year, month, day) := dateOf t in
  (appendInt year 4 ++ "-" ++ appendInt month 2 ++ "-" ++ appendInt day 2)%string.

(** The zero [Time]: 0001-01-01T00:00:00Z. *)
Definition zeroTime : Time := mkTime (- unixEpochDays * secondsPerDay * 1000000000) 0.

(** *** Parsing with the layout ["15:04 (-07)"] *)

(** [getnum s fixed]: one or two leading digits; exactly two when
    [fixed]. *)
Definition getnum (s : string) (fixed : bool) : option (Z * string) :=
  match s with
  | String a s1 =>
      if isDigit a then
        match s1 with
        | String b s2 =>
            if isDigit b then Some (digitVal a * 10 + digitVal b, s2)
            else if fixed then None else Some (digitVal a, s1)
        | EmptyString => if fixed then None else Some (digitVal a, s1)
        end
      else None
  | EmptyString => None
  end.

Fixpoint cutspace (s : string) : string :=
  match s with
  | String " " s' => cutspace s'
  | _ => s
  end.

(** [skip value prefix] for the prefixes of this layout: a literal byte
    must match; a space in the layout matches a run of spaces. *)
Definition skipByte (value : string) (c : ascii) : option string :=
  match value with
  | String a s' => if Ascii.eqb a c then Some s' else None
  | EmptyString => None
  end.

Definition skipSpaces (value : string) : option string :=
  match value with
  | String a _ => if Ascii.eqb a " " then Some (cutspace value) else None
  | EmptyString => Some EmptyString
  end.

(** [time.Parse("15:04 (-07)", value)]: hour (one or two digits, below
    24), [:], minute (two digits, below 60), spaces, [(], sign and two
    digits of offset hours (at most 24), [)], and nothing more. The
    result is that time of day on 0000-01-01 at the given offset. *)
Definition Parse (value : string) : option Time :=
  '(hour, value) ← getnum value false;
  if 24 <=? hour then None else
  value ← skipByte value ":";
  '(min, value) ← getnum value true;
  if 60 <=? min then None else
  value ← skipSpaces value;
  value ← skipByte value "(";
  match value with
  | String sign (String h1 (String h2 value)) =>
      '(hr, _) ← getnum (String h1 (String h2 EmptyString)) true;
      if 24 <? hr then None else
      zoneOffset ← (if Ascii.eqb sign "+" then Some (hr * 3600)
                    else if Ascii.eqb sign "-" then Some (- (hr * 3600))
                    else None);
      value ← skipByte value ")";
      match value with
      | EmptyString => Some (Date 0 1 1 hour min 0 0 zoneOffset)
      | _ => None
      end
  | _ => None
  end.

End GoTime.

(** ** Decoded JSON *)

(** What [json.Unmarshal] stores in an [interface{}]. A number keeps its
    literal: no code here looks inside one. *)
#[warnings="-register-all"]
Inductive json : Type :=
  | JNull
  | JBool (b : bool)
  | JNumber (lit : string)
  | JString (s : string)
  | JArray (l : list json)
  | JObject (m : gmap string json).

(** [v.(string)] and [v.(map[string]interface{})]; a key that is absent
    from a map reads as the nil interface, on which both panic. *)
Definition assertString (v : option json) : result string :=
  match v with
  | Some (JString s) => Ok s
  | _ => Panic TypeAssertionFailed
  end.

Definition assertObject (v : option json) : result (gmap string json) :=
  match v with
  | Some (JObject m) => Ok m
  | _ => Panic TypeAssertionFailed
  end.

(** ** Iterating over a map *)

(** The order in which a [range] loop visits a map is not specified. A
    [Ranger] fixes one enumeration per map; it is [fair] when it yields
    every entry exactly once. *)
Record Ranger : Type := { rangeOf : forall A : Type, gmap string A -> list (string * A) }.
Arguments rangeOf r {A} m.

Definition fair (r : Ranger) : Prop :=
  forall (A : Type) (m : gmap string A), rangeOf r m ≡ₚ map_to_list m.

(** The enumeration in key order of the map's representation. *)
Definition rangeSorted : Ranger := {| rangeOf := fun A m => map_to_list m |}.

(** The reverse enumeration. *)
Definition rangeReversed : Ranger := {| rangeOf := fun A m => reverse (map_to_list m) |}.

(** ** Prayers and their order *)

Record Prayer : Type := mkPrayer { Name : string; Time : GoTime.Time }.

(** The zero value of [Prayer], which [make(Prayers, 5)] fills with. *)
Definition zeroPrayer : Prayer := mkPrayer "" GoTime.zeroTime.

Abbreviation Prayers := (list Prayer).

(** [prayers[i]] as an expression: panics outside the slice. *)
Definition sliceGet {A} (s : list A) (i : nat) : result A :=
  match s !! i with
  | Some a => Ok a
  | None => Panic SliceIndexOutOfRange
  end.

(** [prayers[i] = x]: panics outside the slice. *)
Definition sliceSet {A} (s : list A) (i : nat) (x : A) : result (list A) :=
  if decide (i < length s)%nat then Ok (<[i:=x]> s) else Panic SliceIndexOutOfRange.

Definition Len (prayers : Prayers) : nat := length prayers.

Definition sortTable : string := "FDAMI".

(** [prayers.Less(i, j)] *)
Definition Less (prayers : Prayers) (i j : nat) : result bool :=
  pi ← sliceGet prayers i;
  ci ← byteAt0 (Name pi);
  let ii := IndexByte sortTable ci in
  pj ← sliceGet prayers j;
  cj ← byteAt0 (Name pj);
  let ij := IndexByte sortTable cj in
  if ii <? ij then Ok true else Ok false.

(** [prayers.Swap(i, j)] *)
Definition Swap (prayers : Prayers) (i j : nat) : result Prayers :=
  pj ← sliceGet prayers j;
  pi ← sliceGet prayers i;
  prayers ← sliceSet prayers i pj;
  sliceSet prayers j pi.

(** *** Package sort *)

(** The inner loop of [insertionSort]:
    [for j := i; j > a && data.Less(j, j-1); j-- { data.Swap(j, j-1) }]. *)
Fixpoint insertionInner (a j : nat) (data : Prayers) : result Prayers :=
  match j with
  | O => Ok data
  | S j' =>
      if decide (a < j)%nat then
        less ← Less data j j';
        if less : bool then
          data ← Swap data j j';
          insertionInner a j' data
        else Ok data
      else Ok data
  end.

(** [insertionSort(data, a, b)]: [for i := a + 1; i < b; i++ { ... }]. *)
Definition insertionSort (data : Prayers) (a b : nat) : result Prayers :=
  foldRange (fun data i => insertionInner a i data) data
            (seq (a + 1) (b - (a + 1))).

(** [sort.Sort(data)] for slices of at most 12 elements, where it is
    [insertionSort] over the whole slice; [MapToPrayers] sorts 5. *)
Definition Sort (data : Prayers) : result Prayers :=
  let n := Len data in
  if decide (n <= 1)%nat then Ok data else insertionSort data 0 n.

(** ** The schedule parser *)

Definition isPrayerName (k : string) : bool :=
  String.eqb k "Fajr" || String.eqb k "Dhuhr" || String.eqb k "Asr"
  || String.eqb k "Maghrib" || String.eqb k "Isha".

(** The body of the loop of [FilterPrayers]. *)
Definition filterStep (m : gmap string string) (kv : string * json)
  : result (gmap string string) :=
  let '(k, v) := kv in
  if isPrayerName k then
    s ← assertString (Some v);
    Ok (<[k:=s]> m)
  else Ok m.

Definition FilterPrayers (r : Ranger) (pm : gmap string json)
  : result (gmap string string) :=
  foldRange filterStep ∅ (rangeOf r pm).

(** The body of the loop of [MapToPrayers]; the state is the slice and
    the counter [i]. *)
Definition mapStep (t : GoTime.Time) (st : Prayers * nat) (kv : string * string)
  : result (Prayers * nat) :=
  let '(prayers, i) := st in
  let '(k, v) := kv in
  parsed ← match GoTime.Parse v with
           | Some parsed => Ok parsed
           | None => Panic TimeParseFailed
           end;
  let parsed := GoTime.AddDate parsed (GoTime.Year t) (GoTime.Month t - 1)
                               (GoTime.Day t - 1) in
  prayers ← sliceSet prayers i (mkPrayer k parsed);
  Ok (prayers, S i).

Definition MapToPrayers (r : Ranger) (m : gmap string string) (t : GoTime.Time)
  : result Prayers :=
  let prayers := replicate 5 zeroPrayer in
  '(prayers, _) ← foldRange (mapStep t) (prayers, O) (rangeOf r m);
  Sort prayers.

(** [jsonMap.Data[i]] for an [int] index. *)
Definition dataGet (Data : list json) (i : Z) : result json :=
  if i <? 0 then Panic DayIndexOutOfRange
  else match Data !! Z.to_nat i with
       | Some v => Ok v
       | None => Panic DayIndexOutOfRange
       end.

(** The part of [PrayerTimings] after the file has been read: decode the
    month, take the day's entry, filter and convert its timings.
    [unmarshal] is [json.Unmarshal] into [struct{ Data []interface{} }]:
    [None] when it returns an error, otherwise the [Data] field. *)
Definition ParseTimings (unmarshal : string -> option (list json)) (r : Ranger)
    (data : string) (t : GoTime.Time) : result Prayers :=
  let today := GoTime.Day t in
  Data ← match unmarshal data with
         | Some Data => Ok Data
         | None => Panic JsonError
         end;
  entry ← dataGet Data (today - 1);
  todayData ← assertObject (Some entry);
  pm ← assertObject (todayData !! "timings");
  timings ← FilterPrayers r pm;
  MapToPrayers r timings t.

(** ** The world the program runs in *)

(** The package-level configuration. [latitude] and [longitude] are
    [float64] values that the program only prints with [%v]; they are kept
    as that rendering. *)
Record Config : Type := {
  timingsDir : string;
  remindBefore : GoTime.Duration;
  latitude : string;
  longitude : string
}.

Definition defaultConfig : Config :=
  {| timingsDir := "./";
     remindBefore := 5 * GoTime.Minute;
     latitude := "30.983334";
     longitude := "41.016666" |}.

Definition apiUrl : string := "https://api.aladhan.com/v1/calendar".
Definition method : Z := 4.
Definition school : Z := 0.

(** An [*http.Response]: only the status and the body matter here. *)
Record Response : Type := { StatusCode : Z; Body : string }.

(** What the program cannot decide: the readings of the clock, the
    answers of the network, whether a file can be created, the JSON
    decoder and the iteration order of maps. *)
Record Env : Type := {
  clock : nat -> GoTime.Time;           (* the k-th reading of time.Now() *)
  httpGet : string -> option Response;  (* None: http.Get returns an error *)
  creatable : string -> bool;           (* whether os.Create succeeds *)
  unmarshal : string -> option (list json);
  ranger : Ranger
}.

(** What the display receives. *)
Inductive uiEvent : Type :=
  | ShowTimings (prayers : Prayers)                 (* updateTimings() *)
  | ShowNextPrayer (name : string) (h m s : Z).     (* the "Next Prayer" label *)

Record World : Type := {
  clockReads : nat;               (* calls of time.Now() so far *)
  files : gmap string string;     (* persistent storage: path to content *)
  requests : list string;         (* URLs fetched so far, latest first *)
  stdout : list string;           (* lines printed, latest first *)
  sounds : list string;           (* PlaySound goroutines started, latest first *)
  display : list uiEvent          (* display updates, latest first *)
}.

(** Computations that read and change the world and may panic; the world
    at the moment of a panic is kept. *)
Definition IO (A : Type) : Type := World -> result A * World.

#[global] Instance IO_ret : MRet IO := fun A a w => (Ok a, w).
#[global] Instance IO_bind : MBind IO := fun A B k c w =>
  match c w with
  | (Ok a, w') => k a w'
  | (Panic e, w') => (Panic e, w')
  end.

Definition liftResult {A} (r : result A) : IO A := fun w => (r, w).
Definition raise {A} (e : panic) : IO A := fun w => (Panic e, w).

Section Program.

Context (cfg : Config) (env : Env).

(** [time.Now()] *)
Definition Now : IO GoTime.Time := fun w =>
  (Ok (clock env (clockReads w)),
   {| clockReads := S (clockReads w); files := files w; requests := requests w;
      stdout := stdout w; sounds := sounds w; display := display w |}).

(** [os.Stat(path)] followed by [os.IsNotExist(err)] *)
Definition statNotExist (path : string) : IO bool := fun w =>
  (Ok (bool_decide (files w !! path = None)), w).

Definition Println (line : string) : IO unit := fun w =>
  (Ok tt,
   {| clockReads := clockReads w; files := files w; requests := requests w;
      stdout := line :: stdout w; sounds := sounds w; display := display w |}).

(** [http.Get(url)]; an error is [None]. *)
Definition Get (url : string) : IO (option Response) := fun w =>
  (Ok (httpGet env url),
   {| clockReads := clockReads w; files := files w; requests := url :: requests w;
      stdout := stdout w; sounds := sounds w; display := display w |}).

Definition writeFile (path content : string) : IO unit := fun w =>
  (Ok tt,
   {| clockReads := clockReads w; files := <[path:=content]> (files w);
      requests := requests w; stdout := stdout w; sounds := sounds w;
      display := display w |}).

(** [os.Create(path)]: the file exists and is empty afterwards; [false]
    when it returns an error. *)
Definition Create (path : string) : IO bool :=
  if creatable env path then (writeFile path "";; mret true) else mret false.

(** [os.Open(path)] followed by [io.ReadAll(f)]; [None] when the file
    cannot be opened. *)
Definition readFile (path : string) : IO (option string) := fun w =>
  (Ok (files w !! path), w).

(** [go PlaySound(wavPath)]: the goroutine is started and not awaited. *)
Definition goPlaySound (wavPath : string) : IO unit := fun w =>
  (Ok tt,
   {| clockReads := clockReads w; files := files w; requests := requests w;
      stdout := stdout w; sounds := wavPath :: sounds w; display := display w |}).

Definition show (e : uiEvent) : IO unit := fun w =>
  (Ok tt,
   {| clockReads := clockReads w; files := files w; requests := requests w;
      stdout := stdout w; sounds := sounds w; display := e :: display w |}).

(** *** The timings cache *)

Definition timingsPathOf (t : GoTime.Time) : string :=
  (timingsDir cfg ++ "timings-" ++ GoTime.FormatDateOnly t ++ ".json")%string.

Definition requestUrlOf (t : GoTime.Time) : string :=
  (apiUrl ++ "/" ++ fmtInt (GoTime.Year t) ++ "/" ++ fmtInt (GoTime.Month t)
   ++ "?latitude=" ++ latitude cfg ++ "&longitude=" ++ longitude cfg
   ++ "&method=" ++ fmtInt method)%string.

Definition DownloadTimings (t : GoTime.Time) : IO string :=
  let timingsPath := timingsPathOf t in
  notExist ← statNotExist timingsPath;
  (if notExist : bool then
     let requestUrl := requestUrlOf t in
     Println "Downloading timings...";;
     resp ← Get requestUrl;
     match resp with
     | None => raise HttpGetFailed
     | Some resp =>
         created ← Create timingsPath;
         if created : bool then
           (* io.Copy(f, resp.Body) *)
           writeFile timingsPath (Body resp)
         else raise CreateFailed
     end
   else mret tt);;
  mret timingsPath.

(** *** The schedule of a day *)

Definition PrayerTimings (t : GoTime.Time) : IO Prayers :=
  timingsPath ← DownloadTimings t;
  data ← readFile timingsPath;
  match data with
  | None => raise OpenFailed
  | Some data => liftResult (ParseTimings (unmarshal env) (ranger env) data t)
  end.

(** *** The prayer clock *)

(** The loop of [NextPrayer]: the first prayer that the clock, read
    anew at each step, is before. *)
Fixpoint scanPrayers (prayers : Prayers) : IO (option Prayer) :=
  match prayers with
  | [] => mret None
  | v :: rest =>
      now ← Now;
      if GoTime.Before now (Time v) then mret (Some v) else scanPrayers rest
  end.

(** [copy(dst, src)]: overwrites the first [min(len(dst), len(src))]
    elements of [dst]. *)
Definition copySlice {A} (dst src : list A) : list A :=
  take (length dst) src ++ drop (length src) dst.

(** [NextPrayer(prayers)]. The slice is shared with the caller; its
    contents after the call are the third component of the result. *)
Definition NextPrayer (prayers : Prayers) : IO (Prayer * bool * Prayers) :=
  found ← scanPrayers prayers;
  match found with
  | Some v => mret (v, false, prayers)
  | None =>
      now ← Now;
      let nextDay := GoTime.AddDate now 0 0 1 in
      newPrayerTimings ← PrayerTimings nextDay;
      let prayers := copySlice prayers newPrayerTimings in
      first ← liftResult (sliceGet prayers 0);
      mret (first, true, prayers)
  end.

(** *** The timer callback of [guiMain] *)

(** [FormatNextPrayer(p)], up to the rendering: the name and the hours,
    minutes and seconds that are printed. [Z.quot] is Go's [/]. *)
Definition FormatNextPrayer (p : Prayer) : IO uiEvent :=
  now ← Now;
  let rem := GoTime.Sub (Time p) now in
  let h := Z.quot rem GoTime.Hour in
  let rem := rem - h * GoTime.Hour in
  let m := Z.quot rem GoTime.Minute in
  let rem := rem - m * GoTime.Minute in
  let s := Z.quot rem GoTime.Second in
  mret (ShowNextPrayer (Name p) h m s).

(** The [ACTION_CB] of the timer, run once per tick. *)
Definition timerAction (prayers : Prayers) : IO Prayers :=
  '(np, timingsChanged, prayers) ← NextPrayer prayers;
  (if timingsChanged : bool then show (ShowTimings prayers) else mret tt);;
  now ← Now;
  let rem := GoTime.Round (GoTime.Sub (Time np) now) GoTime.Second in
  (if rem =? remindBefore cfg then goPlaySound "tasbih.wav" else mret tt);;
  (if rem =? GoTime.Second then goPlaySound "adhan.wav" else mret tt);;
  title ← FormatNextPrayer np;
  show title;;
  mret prayers.

End Program.

Definition emptyWorld : World :=
  {| clockReads := O; files := ∅; requests := []; stdout := []; sounds := [];
     display := [] |}.

(** * Vocabulary of the statements *)

(** ** Sorting *)

(** With names that have a first byte, [Less] compares the positions of
    those bytes in the table. *)
Definition named (p : Prayer) : Prop := Name p ≠ "".

#[global] Instance named_dec p : Decision (named p) :=
  not_dec (decide (Name p = "")).

Definition rank (p : Prayer) : Z :=
  match Name p with
  | EmptyString => -1
  | String c _ => IndexByte sortTable c
  end.

(** Insertion of [x] into a prefix held in reverse (largest rank first),
    which is what the inner loop of [insertionSort] does by swaps. *)
Fixpoint insRev (x : Prayer) (rp : list Prayer) : list Prayer :=
  match rp with
  | [] => [x]
  | y :: rp' => if rank x <? rank y then y :: insRev x rp' else x :: rp
  end.

Definition sortedRev (data : list Prayer) : list Prayer :=
  foldl (fun rp x => insRev x rp) [] data.

(** The reversed prefix is kept in weakly decreasing rank. *)
Definition descending : list Prayer -> Prop :=
  StronglySorted (fun a b => rank b <= rank a).
Definition ascending : list Prayer -> Prop :=
  StronglySorted (fun a b => rank a <= rank b).
Definition strictlyAscending : list Prayer -> Prop :=
  StronglySorted (fun a b => rank a < rank b).

(** ** Filtering and converting *)

Definition prayerNames : list string := ["Fajr"; "Dhuhr"; "Asr"; "Maghrib"; "Isha"].

Definition jsonString (v : json) : option string :=
  match v with
  | JString s => Some s
  | _ => None
  end.

(** Every value under a prayer name is a string. *)
Definition stringsOnly (pm : gmap string json) : Prop :=
  map_Forall (fun k v => isPrayerName k = true -> is_Some (jsonString v)) pm.

(** The entries under the five prayer names, as strings. *)
Definition filterSpec (pm : gmap string json) : gmap string string :=
  omap jsonString (filter (fun kv => isPrayerName kv.1 = true) pm).

(** What [FilterPrayers] computes, whatever the iteration order. *)
Definition FilterPrayers_spec (pm : gmap string json) : result (gmap string string) :=
  if decide (stringsOnly pm) then Ok (filterSpec pm) else Panic TypeAssertionFailed.

Definition parseable (v : string) : Prop := is_Some (GoTime.Parse v).

(** The time of day [parsed] moved to the date of [t], as [MapToPrayers]
    does with [AddDate]. *)
Definition onDateOf (t parsed : GoTime.Time) : GoTime.Time :=
  GoTime.AddDate parsed (GoTime.Year t) (GoTime.Month t - 1) (GoTime.Day t - 1).

(** The prayer that an entry of the filtered map becomes. *)
Definition toPrayer (t : GoTime.Time) (kv : string * string) : Prayer :=
  mkPrayer kv.1 (onDateOf t (default GoTime.zeroTime (GoTime.Parse kv.2))).

(** The five prayers of a filtered map, in the canonical order. *)
Definition canonical (t : GoTime.Time) (m : gmap string string) : list Prayer :=
  (fun k => toPrayer t (k, default "" (m !! k))) <$> prayerNames.

(** All keys are prayer names. *)
Definition prayerKeys {A} (m : gmap string A) : Prop :=
  forall k, is_Some (m !! k) -> isPrayerName k = true.

(** What [MapToPrayers] computes on a map whose keys are prayer names,
    whatever the iteration order. *)
Definition MapToPrayers_spec (m : gmap string string) (t : GoTime.Time) : result Prayers :=
  if decide (map_Forall (fun _ v => parseable v) m) then
    if decide (Forall (fun k => is_Some (m !! k)) prayerNames) then Ok (canonical t m)
    else Panic StringIndexOutOfRange
  else Panic TimeParseFailed.

(** ** The parser *)

(** The timings object of the day of [t] in the payload [data] is [pm]. *)
Definition dayTimings (unmarshal : string -> option (list json)) (data : string)
    (t : GoTime.Time) (pm : gmap string json) : Prop :=
  exists Data day,
    unmarshal data = Some Data /\
    dataGet Data (GoTime.Day t - 1) = Ok (JObject day) /\
    day !! "timings" = Some (JObject pm).

(** Each of the five prayers has a time string that parses. *)
Definition validTimings (pm : gmap string json) : Prop :=
  Forall (fun k => exists s, pm !! k = Some (JString s) /\ parseable s) prayerNames.

(** The payload has no entry for the day of [t]. *)
Definition dayAbsent (unmarshal : string -> option (list json)) (data : string)
    (t : GoTime.Time) : Prop :=
  exists Data, unmarshal data = Some Data /\ Z.of_nat (length Data) < GoTime.Day t.

(** One of the five prayers is missing from the day's timings. *)
Definition keyMissing (unmarshal : string -> option (list json)) (data : string)
    (t : GoTime.Time) : Prop :=
  exists pm k, dayTimings unmarshal data t pm /\ k ∈ prayerNames /\ pm !! k = None.

(** One of the retained time strings does not parse. *)
Definition badTimeString (unmarshal : string -> option (list json)) (data : string)
    (t : GoTime.Time) : Prop :=
  exists pm k s, dayTimings unmarshal data t pm /\ k ∈ prayerNames /\
    pm !! k = Some (JString s) /\ ~ parseable s.

(** The error taxonomy of the specification over the panic sites. *)
Definition FetchError (e : panic) : Prop := e = HttpGetFailed.
Definition StorageError (e : panic) : Prop := e = CreateFailed \/ e = OpenFailed.
Definition ParseError (e : panic) : Prop :=
  e = JsonError \/ e = DayIndexOutOfRange \/ e = TypeAssertionFailed \/
  e = TimeParseFailed \/ e = SliceIndexOutOfRange \/ e = StringIndexOutOfRange.

(** What [ParseTimings] computes, whatever the iteration order. *)
Definition ParseTimings_spec (unmarshal : string -> option (list json))
    (data : string) (t : GoTime.Time) : result Prayers :=
  Data ← match unmarshal data with
         | Some Data => Ok Data
         | None => Panic JsonError
         end;
  entry ← dataGet Data (GoTime.Day t - 1);
  todayData ← assertObject (Some entry);
  pm ← assertObject (todayData !! "timings");
  timings ← FilterPrayers_spec pm;
  MapToPrayers_spec timings t.

(** ** The world *)

(** The clock shows [now] at every reading. *)
Definition frozen (env : Env) (now : GoTime.Time) : Prop :=
  forall k, clock env k = now.

(** The payload of the date of [t] is at hand: cached, or absent from the
    cache while the provider answers with it and the file can be created. *)
Definition available (cfg : Config) (env : Env) (w : World) (t : GoTime.Time)
    (data : string) : Prop :=
  files w !! timingsPathOf cfg t = Some data \/
  (files w !! timingsPathOf cfg t = None /\
   creatable env (timingsPathOf cfg t) = true /\
   exists resp, httpGet env (requestUrlOf cfg t) = Some resp /\ Body resp = data).

(** ** The calendar *)

(** The day number [d] converts to a month from 1 to 12 and a day from 1,
    and these convert back to [d]. *)
Definition calOK (d : Z) : bool :=
  let '(y, yd) := GoTime.yearOfDays d in
  let '(m, dd) := GoTime.monthOfYday y yd in
  (1 <=? m) && (m <=? 12) && (1 <=? dd) &&
  (GoTime.daysBeforeMonth y m + (dd - 1) =? d).

(** [f] holds of the [n] integers from [d] on. *)
Fixpoint allFrom (f : Z -> bool) (n : nat) (d : Z) : bool :=
  match n with
  | O => true
  | S n' => if f d then allFrom f n' (d + 1) else false
  end.

(** ** Sample data: the first days of June 2024 *)

Definition sampleTimings : gmap string json :=
  list_to_map
    [("Fajr", JString "04:30 (+03)"); ("Sunrise", JString "05:50 (+03)");
     ("Dhuhr", JString "11:45 (+03)"); ("Asr", JString "15:10 (+03)");
     ("Sunset", JString "18:20 (+03)"); ("Maghrib", JString "18:20 (+03)");
     ("Isha", JString "19:50 (+03)"); ("Imsak", JString "04:20 (+03)");
     ("Midnight", JString "23:33 (+03)")].

Definition sampleDay (pm : gmap string json) : json :=
  JObject {[ "timings" := JObject pm ]}.

Definition sampleMonth : list json := replicate 30 (sampleDay sampleTimings).

Definition sampleNoAsr : gmap string json := delete "Asr" sampleTimings.

Definition sampleBadIsha : gmap string json :=
  <["Isha" := JString "19h50"]> sampleTimings.

(** A decoder that knows three documents: the month above, a month whose
    second day lacks Asr, and a month whose second day has a malformed
    Isha. *)
Definition sampleUnmarshal (data : string) : option (list json) :=
  if String.eqb data "june" then Some sampleMonth
  else if String.eqb data "june-no-asr" then
    Some [sampleDay sampleTimings; sampleDay sampleNoAsr]
  else if String.eqb data "june-bad-isha" then
    Some [sampleDay sampleTimings; sampleDay sampleBadIsha]
  else None.

(** 2024-06-02T12:00:00+03:00 *)
Definition sampleNoon : GoTime.Time := GoTime.Date 2024 6 2 12 0 0 0 10800.

(** ** Sample worlds *)

(** A provider that answers every request with the document ["june"], a
    storage that accepts every file, and a clock that shows [now]. *)
Definition sampleEnv (now : GoTime.Time) : Env :=
  {| clock := fun _ => now;
     httpGet := fun _ => Some {| StatusCode := 200; Body := "june" |};
     creatable := fun _ => true;
     unmarshal := sampleUnmarshal;
     ranger := rangeReversed |}.

(** The same, with a provider that answers 404. *)
Definition notFoundEnv (now : GoTime.Time) : Env :=
  {| clock := fun _ => now;
     httpGet := fun _ => Some {| StatusCode := 404; Body := "Not Found" |};
     creatable := fun _ => true;
     unmarshal := sampleUnmarshal;
     ranger := rangeReversed |}.

(** The schedule of the sample timings on a day of June 2024, at +03:00. *)
Definition sampleSchedule (day : Z) : Prayers :=
  [ mkPrayer "Fajr" (GoTime.Date 2024 6 day 4 30 0 0 10800);
    mkPrayer "Dhuhr" (GoTime.Date 2024 6 day 11 45 0 0 10800);
    mkPrayer "Asr" (GoTime.Date 2024 6 day 15 10 0 0 10800);
    mkPrayer "Maghrib" (GoTime.Date 2024 6 day 18 20 0 0 10800);
    mkPrayer "Isha" (GoTime.Date 2024 6 day 19 50 0 0 10800) ].

(** 2024-06-01T20:00:00+03:00, after Isha. *)
Definition sampleEvening : GoTime.Time := GoTime.Date 2024 6 1 20 0 0 0 10800.

(** 2024-06-01T23:00:00-08:00, on a machine eleven hours west of the
    provider's zone: 2024-06-02T09:00:00+03:00. *)
Definition sampleWest : GoTime.Time := GoTime.Date 2024 6 1 23 0 0 0 (-28800).

(** A world whose cache holds the file of 2024-06-02. *)
Definition cachedWorld : World :=
  {| clockReads := O; files := {[ timingsPathOf defaultConfig sampleNoon := "june" ]};
     requests := []; stdout := []; sounds := []; display := [] |}.

(** 2024-06-02T11:44:59+03:00 and 2024-06-02T11:44:59.6+03:00: one second
    and four tenths of a second before the sample Dhuhr. *)
Definition secondToDhuhr : GoTime.Time := GoTime.Date 2024 6 2 11 44 59 0 10800.
Definition instantToDhuhr : GoTime.Time := GoTime.Date 2024 6 2 11 44 59 600000000 10800.

(** 2024-06-02T04:00:00+03:00, before the sample Fajr. *)
Definition sampleDawn : GoTime.Time := GoTime.Date 2024 6 2 4 0 0 0 10800.

(** The world after [k] readings of the clock and nothing else. *)
Definition afterReads (k : nat) : World :=
  {| clockReads := k; files := ∅; requests := []; stdout := []; sounds := [];
     display := [] |}.

(** The world after the rollover of the sample evening: six readings of
    the clock, one request, and the file of the next day. *)
Definition rolledWorld : World :=
  {| clockReads := 6;
     files := {[ timingsPathOf defaultConfig (GoTime.AddDate sampleEvening 0 0 1) := "june" ]};
     requests := [requestUrlOf defaultConfig (GoTime.AddDate sampleEvening 0 0 1)];
     stdout := ["Downloading timings..."];
     sounds := []; display := [] |}.

Definition sampleFajr (day : Z) : Prayer :=
  mkPrayer "Fajr" (GoTime.Date 2024 6 day 4 30 0 0 10800).
Definition sampleDhuhr (day : Z) : Prayer :=
  mkPrayer "Dhuhr" (GoTime.Date 2024 6 day 11 45 0 0 10800).

(** ** More sample data *)

(** A map of six time strings. *)
Definition sixTimings : gmap string string :=
  list_to_map [("Fajr", "04:30 (+03)"); ("Sunrise", "05:50 (+03)");
               ("Dhuhr", "11:45 (+03)"); ("Asr", "15:10 (+03)");
               ("Maghrib", "18:20 (+03)"); ("Isha", "19:50 (+03)")].


(** A world like the sample one whose storage refuses every file. *)
Definition readOnlyEnv : Env :=
  {| clock := fun _ => sampleNoon;
     httpGet := fun _ => Some {| StatusCode := 200; Body := "june" |};
     creatable := fun _ => false;
     unmarshal := sampleUnmarshal;
     ranger := rangeReversed |}.

(** A world like the sample evening's with no network. *)
Definition offlineEnv : Env :=
  {| clock := fun _ => sampleEvening;
     httpGet := fun _ => None;
     creatable := fun _ => true;
     unmarshal := sampleUnmarshal;
     ranger := rangeReversed |}.

(** A decoder whose only document is a month of null entries. *)
Definition nullsUnmarshal (data : string) : option (list json) :=
  if String.eqb data "june-nulls" then Some [JNull; JNull] else None.

(** * Properties *)

(** ** Sorting *)

Local Arguments IndexByte : simpl never.
Local Ltac rsimpl := cbn [mbind mret result_bind result_ret].

Lemma byteAt0_named p : named p -> exists c, byteAt0 (Name p) = Ok c /\ rank p = IndexByte sortTable c.
Proof.
  unfold named, rank. destruct (Name p) as [|c s]; [congruence|].
  intros _. by exists c.
Qed.

Lemma byteAt0_unnamed p : ~ named p -> byteAt0 (Name p) = Panic StringIndexOutOfRange.
Proof.
  unfold named. destruct (Name p); [done|]. intros H. by destruct H.
Qed.

Lemma Less_named data i j pi pj :
  data !! i = Some pi -> data !! j = Some pj -> named pi -> named pj ->
  Less data i j = Ok (rank pi <? rank pj).
Proof.
  intros Hi Hj Ni Nj. unfold Less, sliceGet. rewrite Hi, Hj. rsimpl.
  destruct (byteAt0_named _ Ni) as (ci & -> & ->).
  destruct (byteAt0_named _ Nj) as (cj & -> & ->). rsimpl.
  by destruct (_ <? _).
Qed.

Lemma Less_unnamed data i j pi pj :
  data !! i = Some pi -> data !! j = Some pj -> ~ (named pi /\ named pj) ->
  Less data i j = Panic StringIndexOutOfRange.
Proof.
  intros Hi Hj N. unfold Less, sliceGet. rewrite Hi, Hj. rsimpl.
  destruct (decide (named pi)) as [Ni|Ni].
  - destruct (byteAt0_named _ Ni) as (ci & -> & _). rsimpl.
    rewrite (byteAt0_unnamed pj) by (intros Nj; apply N; split; assumption). reflexivity.
  - rewrite (byteAt0_unnamed pi) by done. reflexivity.
Qed.

Lemma Swap_adjacent (pre : list Prayer) y x post :
  Swap (pre ++ y :: x :: post) (S (length pre)) (length pre)
  = Ok (pre ++ x :: y :: post).
Proof.
  unfold Swap, sliceGet, sliceSet.
  rewrite (list_lookup_middle _ _ y (length pre)) by done. simpl.
  replace (pre ++ y :: x :: post) with ((pre ++ [y]) ++ x :: post)
    by (by rewrite <- app_assoc).
  rewrite (list_lookup_middle _ _ x (S (length pre)))
    by (rewrite length_app; simpl; lia). simpl.
  rewrite decide_True by (rewrite !length_app; simpl; lia). simpl.
  rewrite decide_True by (rewrite length_insert, !length_app; simpl; lia).
  f_equal.
  replace (S (length pre)) with (length (pre ++ [y]) + 0)%nat
    by (rewrite length_app; simpl; lia).
  rewrite insert_app_r. simpl. rewrite <- app_assoc. simpl.
  replace (length pre) with (length pre + 0)%nat at 1 by lia.
  by rewrite insert_app_r.
Qed.

Lemma insertionInner_insRev rp x post :
  Forall named rp -> named x ->
  insertionInner 0 (length rp) (reverse rp ++ x :: post)
  = Ok (reverse (insRev x rp) ++ post).
Proof.
  intros Hrp Hx. revert post. induction Hrp as [|y rp' Hy Hrp' IH]; intros post.
  - done.
  - simpl length. cbn [insertionInner]. rewrite decide_True by lia.
    rewrite reverse_cons, <- app_assoc. simpl.
    assert (Hlen : length (reverse rp') = length rp') by apply length_reverse.
    rewrite (Less_named _ _ _ x y); [| |by rewrite <- Hlen; apply list_lookup_middle|done|done].
    2:{ replace (reverse rp' ++ y :: x :: post) with ((reverse rp' ++ [y]) ++ x :: post)
          by (by rewrite <- app_assoc).
        apply list_lookup_middle. rewrite length_app. simpl. lia. }
    simpl. destruct (rank x <? rank y) eqn:E.
    + rewrite <- Hlen at 1 2. rewrite Swap_adjacent. simpl.
      rewrite IH. by rewrite reverse_cons, <- app_assoc.
    + by rewrite !reverse_cons, <- !app_assoc.
Qed.

Lemma insRev_length x rp : length (insRev x rp) = S (length rp).
Proof. induction rp as [|y rp IH]; simpl; [done|]. destruct (_ <? _); simpl; lia. Qed.

Lemma insRev_perm x rp : insRev x rp ≡ₚ x :: rp.
Proof.
  induction rp as [|y rp IH]; simpl; [done|].
  destruct (_ <? _); [|done]. rewrite IH. apply Permutation_swap.
Qed.

Lemma insRev_named x rp : named x -> Forall named rp -> Forall named (insRev x rp).
Proof. intros. rewrite insRev_perm. by constructor. Qed.

Lemma insertionLoop_named rest : forall rp,
  Forall named rp -> Forall named rest ->
  foldRange (fun data i => insertionInner 0 i data) (reverse rp ++ rest)
            (seq (length rp) (length rest))
  = Ok (reverse (foldl (fun rp x => insRev x rp) rp rest)).
Proof.
  induction rest as [|x rest IH]; intros rp Hrp Hrest.
  - simpl. by rewrite app_nil_r.
  - inversion_clear Hrest as [|? ? Hx Hrest'].
    cbn [length seq foldRange foldl].
    rewrite insertionInner_insRev by done. rsimpl.
    rewrite <- (insRev_length x rp). apply IH; [by apply insRev_named|done].
Qed.

Lemma insertionLoop_unnamed rest : forall rp,
  rp <> [] -> Forall named rp -> ~ Forall named rest ->
  foldRange (fun data i => insertionInner 0 i data) (reverse rp ++ rest)
            (seq (length rp) (length rest))
  = Panic StringIndexOutOfRange.
Proof.
  induction rest as [|x rest IH]; intros rp Hne Hrp Hrest.
  - destruct Hrest. constructor.
  - cbn [length seq foldRange].
    destruct (decide (named x)) as [Hx|Hx].
    + rewrite insertionInner_insRev by done. rsimpl.
      rewrite <- (insRev_length x rp). apply IH.
      * intros E. pose proof (insRev_length x rp) as L. rewrite E in L. done.
      * by apply insRev_named.
      * intros H. apply Hrest. by constructor.
    + destruct rp as [|y rp']; [done|].
      simpl length. cbn [insertionInner]. rewrite decide_True by lia.
      rewrite reverse_cons, <- app_assoc. simpl app.
      rewrite (Less_unnamed _ _ _ x y); [done| | |tauto].
      * replace (reverse rp' ++ y :: x :: rest) with ((reverse rp' ++ [y]) ++ x :: rest)
          by (by rewrite <- app_assoc).
        apply list_lookup_middle. rewrite length_app, length_reverse. simpl. lia.
      * apply list_lookup_middle. by rewrite length_reverse.
Qed.

(** [Sort] succeeds exactly when every name has a first byte (for two or
    more elements), and then computes the insertion sort by rank. *)
Lemma Sort_named data :
  Forall named data -> Sort data = Ok (reverse (sortedRev data)).
Proof.
  intros H. unfold Sort, Len, insertionSort, sortedRev.
  destruct data as [|x0 rest]; [done|].
  destruct rest as [|x1 rest]; [done|].
  rewrite decide_False by (simpl; lia).
  inversion_clear H as [|? ? H0 Hrest].
  replace (length (x0 :: x1 :: rest) - (0 + 1))%nat with (length (x1 :: rest))
    by (simpl; lia).
  change (x0 :: x1 :: rest) with (reverse [x0] ++ x1 :: rest) at 1.
  change (0 + 1)%nat with (length [x0]).
  rewrite insertionLoop_named; [done|by constructor|done].
Qed.

Lemma Sort_unnamed data :
  (2 <= length data)%nat -> ~ Forall named data ->
  Sort data = Panic StringIndexOutOfRange.
Proof.
  intros L H. unfold Sort, Len, insertionSort.
  destruct data as [|x0 rest]; [simpl in L; lia|].
  destruct rest as [|x1 rest]; [simpl in L; lia|].
  rewrite decide_False by (simpl; lia).
  replace (length (x0 :: x1 :: rest) - (0 + 1))%nat with (length (x1 :: rest))
    by (simpl; lia).
  destruct (decide (named x0)) as [H0|H0].
  - change (x0 :: x1 :: rest) with (reverse [x0] ++ x1 :: rest) at 1.
    change (0 + 1)%nat with (length [x0]).
    apply insertionLoop_unnamed; [done|by constructor|].
    intros Hr. apply H. by constructor.
  - cbn [length seq foldRange Nat.add insertionInner]. rewrite decide_True by lia.
    rewrite (Less_unnamed _ _ _ x1 x0); [done|done|done|tauto].
Qed.

Lemma sortedRev_perm data : sortedRev data ≡ₚ data.
Proof.
  unfold sortedRev.
  enough (forall rp, foldl (fun rp x => insRev x rp) rp data ≡ₚ rp ++ data) as H
    by apply (H []).
  induction data as [|x data IH]; intros rp; simpl.
  - by rewrite app_nil_r.
  - rewrite IH, insRev_perm. simpl. apply Permutation_middle.
Qed.

Lemma insRev_descending x rp : descending rp -> descending (insRev x rp).
Proof.
  unfold descending. induction 1 as [|y rp Hs IH Hall]; simpl.
  - repeat constructor.
  - destruct (rank x <? rank y) eqn:E.
    + apply Z.ltb_lt in E. constructor; [done|].
      rewrite insRev_perm. constructor; [lia|done].
    + apply Z.ltb_ge in E. constructor; [by constructor|].
      constructor; [done|]. eapply Forall_impl; [exact Hall|]. simpl. intros; lia.
Qed.

Lemma sortedRev_descending data : descending (sortedRev data).
Proof.
  unfold sortedRev.
  enough (forall rp, descending rp ->
            descending (foldl (fun rp x => insRev x rp) rp data)) as H
    by (apply H; constructor).
  induction data as [|x data IH]; intros rp Hrp; simpl; [done|].
  apply IH. by apply insRev_descending.
Qed.

Lemma descending_reverse l : descending l -> ascending (reverse l).
Proof.
  unfold descending, ascending. induction 1 as [|y l Hs IH Hall].
  - constructor.
  - rewrite reverse_cons.
    apply StronglySorted_app_2; [|done|repeat constructor].
    intros a b Ha Hb. apply list_elem_of_singleton in Hb as ->.
    rewrite Forall_forall in Hall. apply Hall. by apply elem_of_reverse.
Qed.

(** A weakly ascending list that is a permutation of a strictly
    ascending one is that list. *)
Lemma ascending_unique (o t : list Prayer) :
  ascending o -> strictlyAscending t -> o ≡ₚ t -> o = t.
Proof.
  intros Ho Ht. revert o Ho. induction Ht as [|b t Ht IH Hb]; intros o Ho P.
  - by apply Permutation_nil_r in P.
  - destruct o as [|a o]; [by apply Permutation_nil_cons in P|].
    inversion_clear Ho as [|? ? Ho' Ha].
    assert (a = b) as ->.
    { assert (a ∈ b :: t) as Ia by (rewrite <- P; left).
      assert (b ∈ a :: o) as Ib by (rewrite P; left).
      apply elem_of_cons in Ia as [->|Ia]; [done|].
      apply elem_of_cons in Ib as [->|Ib]; [done|].
      rewrite Forall_forall in Ha, Hb.
      specialize (Ha _ Ib). specialize (Hb _ Ia). lia. }
    f_equal. apply IH; [done|]. by apply Permutation_cons_inv in P.
Qed.

(** What [Sort] returns on a permutation of a strictly ascending list
    of named prayers. *)
Lemma Sort_canonical data t :
  Forall named t -> strictlyAscending t -> data ≡ₚ t -> Sort data = Ok t.
Proof.
  intros Hn Ht P. rewrite Sort_named by (by rewrite P).
  f_equal. apply ascending_unique; [|done|].
  - apply descending_reverse, sortedRev_descending.
  - by rewrite reverse_Permutation, sortedRev_perm.
Qed.

(** ** Filtering *)

Lemma isPrayerName_spec k : isPrayerName k = true <-> k ∈ prayerNames.
Proof.
  unfold isPrayerName, prayerNames.
  rewrite !orb_true_iff, !String.eqb_eq, !elem_of_cons, elem_of_nil. tauto.
Qed.

Lemma lookup_filterSpec pm k :
  filterSpec pm !! k = if isPrayerName k then pm !! k ≫= jsonString else None.
Proof.
  unfold filterSpec. rewrite lookup_omap, map_lookup_filter.
  destruct (pm !! k) as [v|] eqn:E; simpl.
  - destruct (isPrayerName k) eqn:N.
    + by rewrite option_guard_True.
    + rewrite option_guard_False; [done|]. simpl. congruence.
  - by destruct (isPrayerName k).
Qed.

Lemma filterSpec_prayerKeys pm : prayerKeys (filterSpec pm).
Proof.
  intros k [s H]. rewrite lookup_filterSpec in H. by destruct (isPrayerName k).
Qed.

Lemma filterFold_ok (l : list (string * json)) : forall acc,
  NoDup l.*1 ->
  Forall (fun kv => isPrayerName kv.1 = true -> is_Some (jsonString kv.2)) l ->
  exists m, foldRange filterStep acc l = Ok m /\
    forall k, m !! k =
      match (if isPrayerName k then (list_to_map l : gmap string json) !! k ≫= jsonString
             else None) with
      | Some s => Some s
      | None => acc !! k
      end.
Proof.
  induction l as [|[k0 v0] l IH]; intros acc ND Hall.
  - exists acc. split; [done|]. intros k. rewrite list_to_map_nil, lookup_empty.
    by destruct (isPrayerName k).
  - inversion_clear ND as [|? ? Hk0 ND']. inversion_clear Hall as [|? ? H0 Hall'].
    simpl in H0. cbn [foldRange filterStep].
    assert (Hnone : (list_to_map l : gmap string json) !! k0 = None)
      by (by apply not_elem_of_list_to_map_1).
    destruct (isPrayerName k0) eqn:N0.
    + destruct (H0 eq_refl) as [s0 Hs0].
      destruct v0; try discriminate Hs0. simpl in Hs0. injection Hs0 as ->.
      cbn [assertString mbind result_bind].
      destruct (IH (<[k0:=s0]> acc) ND' Hall') as (m & -> & Hm).
      exists m. split; [done|]. intros k. rewrite Hm, list_to_map_cons.
      destruct (decide (k = k0)) as [->|Hne].
      * rewrite N0, Hnone, !lookup_insert_eq. done.
      * by rewrite !lookup_insert_ne.
    + rsimpl. destruct (IH acc ND' Hall') as (m & -> & Hm).
      exists m. split; [done|]. intros k. rewrite Hm, list_to_map_cons.
      destruct (decide (k = k0)) as [->|Hne].
      * by rewrite N0.
      * by rewrite lookup_insert_ne.
Qed.

Lemma filterFold_panic (l : list (string * json)) : forall acc,
  ~ Forall (fun kv => isPrayerName kv.1 = true -> is_Some (jsonString kv.2)) l ->
  foldRange filterStep acc l = Panic TypeAssertionFailed.
Proof.
  induction l as [|[k0 v0] l IH]; intros acc Hall.
  - destruct Hall. constructor.
  - cbn [foldRange filterStep].
    destruct (isPrayerName k0) eqn:N0.
    + destruct (jsonString v0) as [s0|] eqn:Hs0.
      * destruct v0; try discriminate Hs0. cbn [assertString mbind result_bind]. apply IH.
        intros H. apply Hall. constructor; [|done]. simpl. intros _. by eexists.
      * by destruct v0.
    + rsimpl. apply IH. intros H. apply Hall. constructor; [|done].
      simpl. congruence.
Qed.

(** [FilterPrayers] does not depend on the iteration order. *)
Lemma FilterPrayers_fair r pm :
  fair r -> FilterPrayers r pm = FilterPrayers_spec pm.
Proof.
  intros F. unfold FilterPrayers, FilterPrayers_spec, stringsOnly.
  specialize (F _ pm).
  assert (ND : NoDup (rangeOf r pm).*1) by (rewrite F; apply NoDup_fst_map_to_list).
  destruct (decide _) as [S|S].
  - apply map_Forall_to_list in S. rewrite <- F in S.
    destruct (filterFold_ok _ ∅ ND) as (m & -> & Hm).
    { eapply Forall_impl; [exact S|]. by intros [k v]. }
    f_equal. apply map_eq. intros k. rewrite Hm, lookup_filterSpec, lookup_empty.
    rewrite (list_to_map_proper _ _ ND F), list_to_map_to_list.
    by destruct (isPrayerName k); [destruct (pm !! k ≫= jsonString)|].
  - apply filterFold_panic. intros H. apply S. apply map_Forall_to_list.
    rewrite <- F. eapply Forall_impl; [exact H|]. by intros [k v].
Qed.

(** ** Converting *)

Lemma mapStep_parseable t prayers i k v :
  parseable v -> (i < length prayers)%nat ->
  mapStep t (prayers, i) (k, v) = Ok (<[i:=toPrayer t (k, v)]> prayers, S i).
Proof.
  intros [parsed Hp] Hi. unfold mapStep, toPrayer, onDateOf, sliceSet. simpl.
  rewrite Hp. rsimpl. by rewrite decide_True.
Qed.

Lemma mapStep_unparseable t st k v :
  ~ parseable v -> mapStep t st (k, v) = Panic TimeParseFailed.
Proof.
  intros Hp. unfold mapStep. destruct st as [prayers i].
  destruct (GoTime.Parse v) eqn:E; [|done]. destruct Hp. by eexists.
Qed.

Lemma mapLoop_ok t (l : list (string * string)) : forall prayers i,
  Forall (fun kv => parseable kv.2) l ->
  (i + length l <= length prayers)%nat ->
  foldRange (mapStep t) (prayers, i) l
  = Ok (take i prayers ++ (toPrayer t <$> l) ++ drop (i + length l) prayers,
        (i + length l)%nat).
Proof.
  induction l as [|[k v] l IH]; intros prayers i Hall Hlen.
  - simpl. by rewrite Nat.add_0_r, take_drop.
  - inversion_clear Hall as [|? ? Hv Hall']. simpl in Hv, Hlen.
    cbn [foldRange]. rewrite mapStep_parseable by (done || lia). rsimpl.
    rewrite IH by (done || rewrite length_insert; lia).
    f_equal. rewrite (take_S_r _ _ (toPrayer t (k, v)))
      by (apply list_lookup_insert_eq; lia).
    rewrite take_insert_ge by lia. rewrite drop_insert_lt by lia.
    simpl. rewrite <- app_assoc. simpl.
    by replace (S (i + length l)) with (i + S (length l))%nat by lia.
Qed.

Lemma mapLoop_panic t (l : list (string * string)) : forall prayers i,
  ~ Forall (fun kv => parseable kv.2) l ->
  (i + length l <= length prayers)%nat ->
  foldRange (mapStep t) (prayers, i) l = Panic TimeParseFailed.
Proof.
  induction l as [|[k v] l IH]; intros prayers i Hall Hlen.
  - destruct Hall. constructor.
  - simpl in Hlen. cbn [foldRange].
    destruct (decide (parseable v)) as [Hv|Hv].
    + rewrite mapStep_parseable by (done || lia). rsimpl.
      apply IH; [|rewrite length_insert; lia].
      intros H. apply Hall. by constructor.
    + by rewrite mapStep_unparseable.
Qed.

Lemma prayerKeys_length {A} (m : gmap string A) :
  prayerKeys m -> (length (map_to_list m) <= 5)%nat.
Proof.
  intros K. rewrite <- (length_fmap fst).
  change 5%nat with (length prayerNames).
  apply submseteq_length, NoDup_submseteq; [apply NoDup_fst_map_to_list|].
  intros k Hk. apply isPrayerName_spec, K.
  apply list_elem_of_fmap in Hk as ([k' v] & -> & Hkv).
  apply elem_of_map_to_list in Hkv. by eexists.
Qed.

Lemma prayerKeys_five {A} (m : gmap string A) :
  prayerKeys m -> length (map_to_list m) = 5%nat ->
  Forall (fun k => is_Some (m !! k)) prayerNames.
Proof.
  intros K L.
  assert (S : (map_to_list m).*1 ⊆+ prayerNames).
  { apply NoDup_submseteq; [apply NoDup_fst_map_to_list|].
    intros k Hk. apply isPrayerName_spec, K.
    apply list_elem_of_fmap in Hk as ([k' v] & -> & Hkv).
    apply elem_of_map_to_list in Hkv. by eexists. }
  apply submseteq_length_Permutation in S; [|rewrite length_fmap, L; done].
  apply Forall_forall. intros k Hk. rewrite <- S in Hk.
  apply list_elem_of_fmap in Hk as ([k' v] & -> & Hkv).
  apply elem_of_map_to_list in Hkv. by eexists.
Qed.

Lemma toPrayer_named t kv : isPrayerName kv.1 = true -> named (toPrayer t kv).
Proof.
  unfold named. simpl. intros H E. by rewrite E in H.
Qed.

Lemma canonical_strictlyAscending t m : strictlyAscending (canonical t m).
Proof.
  unfold strictlyAscending, canonical, prayerNames. simpl.
  repeat (constructor; [|repeat (constructor; [done|]); constructor]).
  constructor.
Qed.

Lemma canonical_named t m : Forall named (canonical t m).
Proof. unfold canonical, prayerNames. simpl. repeat (constructor; [done|]). constructor. Qed.

(** A map that has the five names and only those enumerates as the five
    entries. *)
Lemma map_to_list_five (m : gmap string string) :
  prayerKeys m -> Forall (fun k => is_Some (m !! k)) prayerNames ->
  map_to_list m ≡ₚ (fun k => (k, default "" (m !! k))) <$> prayerNames.
Proof.
  intros K H5.
  set (l := (fun k => (k, default "" (m !! k))) <$> prayerNames).
  assert (ND : NoDup l.*1).
  { apply (bool_decide_unpack _). by vm_compute. }
  rewrite <- (map_to_list_to_map l ND). f_equiv.
  apply map_eq. intros k.
  destruct (isPrayerName k) eqn:N.
  - apply isPrayerName_spec in N as N'.
    rewrite Forall_forall in H5. destruct (H5 _ N') as [v Hv]. rewrite Hv.
    symmetry. apply elem_of_list_to_map; [done|].
    unfold l. apply list_elem_of_fmap. exists k. by rewrite Hv.
  - destruct (m !! k) eqn:E.
    + assert (isPrayerName k = true) by (apply K; by eexists). congruence.
    + symmetry. apply not_elem_of_list_to_map_1.
      unfold l, prayerNames. simpl. intros I.
      assert (isPrayerName k = true) by (by apply isPrayerName_spec). congruence.
Qed.

(** [MapToPrayers] on a map with prayer names as keys does not depend on
    the iteration order. *)
Lemma MapToPrayers_fair r m t :
  fair r -> prayerKeys m -> MapToPrayers r m t = MapToPrayers_spec m t.
Proof.
  intros F K. unfold MapToPrayers, MapToPrayers_spec. cbv zeta.
  set (z := replicate 5 zeroPrayer).
  assert (Lz : length z = 5%nat) by apply length_replicate.
  specialize (F _ m).
  assert (L : (length (rangeOf r m) <= 5)%nat)
    by (rewrite F; by apply prayerKeys_length).
  destruct (decide (map_Forall _ m)) as [P|P].
  - assert (P' : Forall (fun kv : string * string => parseable kv.2) (rangeOf r m)).
    { rewrite F. apply map_Forall_to_list in P.
      eapply Forall_impl; [exact P|]. by intros [k v]. }
    rewrite mapLoop_ok by (done || lia). rsimpl.
    rewrite take_0, app_nil_l, Nat.add_0_l.
    destruct (decide (Forall _ prayerNames)) as [H5|H5].
    + apply Sort_canonical.
      * apply canonical_named.
      * apply canonical_strictlyAscending.
      * pose proof (map_to_list_five m K H5) as M5.
        rewrite drop_ge by (rewrite Lz, F, M5; done).
        rewrite app_nil_r, F, M5.
        unfold canonical. by rewrite <- list_fmap_compose.
    + apply Sort_unnamed.
      * rewrite length_app, length_fmap, length_drop. lia.
      * intros N. apply H5.
        destruct (decide (length (rangeOf r m) = 5%nat)) as [E|E].
        -- apply prayerKeys_five; [done|]. by rewrite <- F.
        -- apply Forall_app in N as [_ N].
           subst z. rewrite drop_replicate in N.
           destruct (5 - length (rangeOf r m))%nat eqn:D; [lia|].
           simpl in N. inversion_clear N as [|? ? N0 _]. by destruct N0.
  - rewrite mapLoop_panic; [done| |lia].
    intros H. apply P. apply map_Forall_to_list. rewrite <- F.
    eapply Forall_impl; [exact H|]. by intros [k v].
Qed.

(** ** The parser *)

Lemma fair_rangeSorted : fair rangeSorted.
Proof. by intros A m. Qed.

Lemma fair_rangeReversed : fair rangeReversed.
Proof. intros A m. simpl. apply reverse_Permutation. Qed.

Lemma rbind_ext {A B} (r : result A) (k1 k2 : A -> result B) :
  (forall a, k1 a = k2 a) -> r ≫= k1 = r ≫= k2.
Proof. intros H. destruct r as [a|e]; [apply H|reflexivity]. Qed.

Lemma rbind_Ok {A B} (a : A) (k : A -> result B) : Ok a ≫= k = k a.
Proof. reflexivity. Qed.

(** [ParseTimings] does not depend on the iteration order. *)
Lemma ParseTimings_fair unmarshal r data t :
  fair r -> ParseTimings unmarshal r data t = ParseTimings_spec unmarshal data t.
Proof.
  intros F. unfold ParseTimings, ParseTimings_spec.
  apply rbind_ext. intros Data. apply rbind_ext. intros entry.
  apply rbind_ext. intros todayData. apply rbind_ext. intros pm.
  rewrite (FilterPrayers_fair r pm F). unfold FilterPrayers_spec.
  destruct (decide (stringsOnly pm)); [|reflexivity].
  rewrite !rbind_Ok.
  apply MapToPrayers_fair; [exact F|apply filterSpec_prayerKeys].
Qed.

Lemma assertObject_object m : assertObject (Some (JObject m)) = Ok m.
Proof. reflexivity. Qed.

Lemma ParseTimings_spec_day unmarshal data t pm :
  dayTimings unmarshal data t pm ->
  ParseTimings_spec unmarshal data t
  = timings ← FilterPrayers_spec pm; MapToPrayers_spec timings t.
Proof.
  intros (Data & day & HD & Hday & Hpm). unfold ParseTimings_spec.
  rewrite HD. cbv beta iota.
  rewrite rbind_Ok, Hday, rbind_Ok, assertObject_object, rbind_Ok.
  rewrite Hpm, assertObject_object, rbind_Ok. reflexivity.
Qed.

Lemma validTimings_stringsOnly pm : validTimings pm -> stringsOnly pm.
Proof.
  intros V k v Hk N. apply isPrayerName_spec in N.
  unfold validTimings in V. rewrite Forall_forall in V.
  destruct (V k N) as (s & Hs & _). rewrite Hk in Hs. injection Hs as ->.
  by eexists.
Qed.

Lemma validTimings_filterSpec pm :
  validTimings pm ->
  map_Forall (fun _ v => parseable v) (filterSpec pm) /\
  Forall (fun k => is_Some (filterSpec pm !! k)) prayerNames.
Proof.
  intros V. unfold validTimings in V. rewrite Forall_forall in V. split.
  - intros k s Hs. rewrite lookup_filterSpec in Hs.
    destruct (isPrayerName k) eqn:N; [|done].
    apply isPrayerName_spec in N. destruct (V k N) as (s' & Hs' & P).
    rewrite Hs' in Hs. simpl in Hs. by injection Hs as <-.
  - apply Forall_forall. intros k N. destruct (V k N) as (s & Hs & _).
    rewrite lookup_filterSpec.
    apply isPrayerName_spec in N. rewrite N, Hs. by eexists.
Qed.

(** The outcome on a valid payload. *)
Lemma ParseTimings_valid unmarshal r data t pm :
  fair r -> dayTimings unmarshal data t pm -> validTimings pm ->
  ParseTimings unmarshal r data t = Ok (canonical t (filterSpec pm)).
Proof.
  intros F D V. rewrite ParseTimings_fair, (ParseTimings_spec_day _ _ _ pm) by done.
  unfold FilterPrayers_spec. rewrite decide_True by (by apply validTimings_stringsOnly).
  rsimpl. unfold MapToPrayers_spec.
  destruct (validTimings_filterSpec pm V) as [P H5].
  by rewrite !decide_True.
Qed.

(** C1: on a valid month payload and a date of that month, the parser
    returns exactly five prayers, named Fajr, Dhuhr, Asr, Maghrib, Isha in
    this order, whatever the order in which the maps are iterated. *)
Theorem Parse_five_canonical unmarshal r data t pm :
  fair r -> dayTimings unmarshal data t pm -> validTimings pm ->
  exists prayers,
    ParseTimings unmarshal r data t = Ok prayers /\
    length prayers = 5%nat /\
    Name <$> prayers = ["Fajr"; "Dhuhr"; "Asr"; "Maghrib"; "Isha"].
Proof.
  intros F D V. exists (canonical t (filterSpec pm)).
  split; [by apply ParseTimings_valid|]. done.
Qed.

Lemma sample_dayTimings : dayTimings sampleUnmarshal "june" sampleNoon sampleTimings.
Proof.
  exists sampleMonth, {[ "timings" := JObject sampleTimings ]}.
  split; [reflexivity|]. split; reflexivity.
Qed.

Lemma sample_validTimings : validTimings sampleTimings.
Proof.
  unfold validTimings, prayerNames.
  repeat (constructor; [eexists; split; [reflexivity|eexists; reflexivity]|]).
  constructor.
Qed.

Lemma Parse_five_canonical_witness :
  exists prayers,
    ParseTimings sampleUnmarshal rangeReversed "june" sampleNoon = Ok prayers /\
    length prayers = 5%nat /\
    Name <$> prayers = ["Fajr"; "Dhuhr"; "Asr"; "Maghrib"; "Isha"].
Proof.
  apply (Parse_five_canonical sampleUnmarshal rangeReversed "june" sampleNoon
           sampleTimings).
  - apply fair_rangeReversed.
  - apply sample_dayTimings.
  - apply sample_validTimings.
Defined.

(** C8: two runs of the parser on the same payload and date give the same
    outcome, prayers and timestamps included, whatever order each run
    iterates the maps in. *)
Theorem Parse_deterministic unmarshal r1 r2 data t :
  fair r1 -> fair r2 ->
  ParseTimings unmarshal r1 data t = ParseTimings unmarshal r2 data t.
Proof. intros F1 F2. by rewrite !ParseTimings_fair. Qed.

Lemma Parse_deterministic_witness :
  ParseTimings sampleUnmarshal rangeSorted "june" sampleNoon
  = ParseTimings sampleUnmarshal rangeReversed "june" sampleNoon.
Proof.
  apply (Parse_deterministic sampleUnmarshal rangeSorted rangeReversed "june"
           sampleNoon).
  - apply fair_rangeSorted.
  - apply fair_rangeReversed.
Defined.

Lemma dataGet_absent Data i :
  Z.of_nat (length Data) < i + 1 -> dataGet Data i = Panic DayIndexOutOfRange.
Proof.
  intros H. unfold dataGet. destruct (i <? 0) eqn:E; [done|].
  apply Z.ltb_ge in E. rewrite lookup_ge_None_2; [done|lia].
Qed.

Lemma FilterPrayers_spec_cases pm :
  FilterPrayers_spec pm = Ok (filterSpec pm) \/
  FilterPrayers_spec pm = Panic TypeAssertionFailed.
Proof. unfold FilterPrayers_spec. destruct (decide _); auto. Qed.

Lemma MapToPrayers_spec_missing m t k :
  k ∈ prayerNames -> m !! k = None ->
  MapToPrayers_spec m t = Panic StringIndexOutOfRange \/
  MapToPrayers_spec m t = Panic TimeParseFailed.
Proof.
  intros Hk Hm. unfold MapToPrayers_spec.
  destruct (decide (map_Forall _ m)); [|by right].
  rewrite decide_False; [by left|].
  intros H. rewrite Forall_forall in H. destruct (H k Hk) as [v Hv]. congruence.
Qed.

Lemma MapToPrayers_spec_unparseable m t k s :
  m !! k = Some s -> ~ parseable s ->
  MapToPrayers_spec m t = Panic TimeParseFailed.
Proof.
  intros Hm Hs. unfold MapToPrayers_spec.
  rewrite decide_False; [done|]. intros H. apply Hs. by apply (H k s).
Qed.

(** C9: the parser panics, and so returns no prayers at all, when the
    payload has no entry for the day, when one of the five prayer names is
    missing from the day's timings, and when one of the retained time
    strings does not parse; each of these panics is a parse error. *)
Theorem Parse_fails unmarshal r data t :
  fair r ->
  dayAbsent unmarshal data t \/ keyMissing unmarshal data t \/
  badTimeString unmarshal data t ->
  exists e, ParseTimings unmarshal r data t = Panic e /\ ParseError e.
Proof.
  intros F H. rewrite ParseTimings_fair by done. unfold ParseError.
  destruct H as [(Data & HD & Hlen)|[(pm & k & D & Hk & Hm)|(pm & k & s & D & Hk & Hm & Hs)]].
  - exists DayIndexOutOfRange. split; [|tauto].
    unfold ParseTimings_spec. rewrite HD. cbv beta iota.
    rewrite rbind_Ok, dataGet_absent by lia. reflexivity.
  - rewrite (ParseTimings_spec_day _ _ _ pm) by done.
    destruct (FilterPrayers_spec_cases pm) as [-> | ->].
    + rewrite rbind_Ok.
      destruct (MapToPrayers_spec_missing (filterSpec pm) t k Hk) as [-> | ->].
      * rewrite lookup_filterSpec, Hm. by destruct (isPrayerName k).
      * eexists. split; [reflexivity|tauto].
      * eexists. split; [reflexivity|tauto].
    + eexists. split; [reflexivity|tauto].
  - rewrite (ParseTimings_spec_day _ _ _ pm) by done.
    destruct (FilterPrayers_spec_cases pm) as [-> | ->].
    + rewrite rbind_Ok.
      rewrite (MapToPrayers_spec_unparseable _ t k s); [| |done].
      * eexists. split; [reflexivity|tauto].
      * rewrite lookup_filterSpec, Hm.
        apply isPrayerName_spec in Hk. by rewrite Hk.
    + eexists. split; [reflexivity|tauto].
Qed.

Lemma sample_dayTimings_of data pm :
  sampleUnmarshal data = Some [sampleDay sampleTimings; sampleDay pm] ->
  dayTimings sampleUnmarshal data sampleNoon pm.
Proof.
  intros H. exists [sampleDay sampleTimings; sampleDay pm], {[ "timings" := JObject pm ]}.
  split; [exact H|]. split; [reflexivity|]. apply lookup_singleton_eq.
Qed.

Lemma Parse_fails_witness :
  (exists e, ParseTimings sampleUnmarshal rangeSorted "june-no-asr" sampleNoon = Panic e
             /\ ParseError e) /\
  (exists e, ParseTimings sampleUnmarshal rangeSorted "june-bad-isha" sampleNoon = Panic e
             /\ ParseError e) /\
  (exists e, ParseTimings sampleUnmarshal rangeSorted "june-no-asr"
               (GoTime.Date 2024 6 3 12 0 0 0 10800) = Panic e
             /\ ParseError e).
Proof.
  split; [|split].
  - apply (Parse_fails sampleUnmarshal rangeSorted "june-no-asr" sampleNoon fair_rangeSorted).
    right; left. exists sampleNoAsr, "Asr".
    split; [|split].
    + by apply sample_dayTimings_of.
    + by apply isPrayerName_spec.
    + by vm_compute.
  - apply (Parse_fails sampleUnmarshal rangeSorted "june-bad-isha" sampleNoon fair_rangeSorted).
    right; right. exists sampleBadIsha, "Isha", "19h50".
    split; [|split; [|split]].
    + by apply sample_dayTimings_of.
    + by apply isPrayerName_spec.
    + by vm_compute.
    + intros [x Hx]. discriminate Hx.
  - apply (Parse_fails sampleUnmarshal rangeSorted "june-no-asr" _ fair_rangeSorted).
    left. exists [sampleDay sampleTimings; sampleDay sampleNoAsr].
    split; [reflexivity|]. by vm_compute.
Defined.

(** C10: [FilterPrayers] either panics on a prayer name whose value is
    not a string, or returns a map whose keys are among the five prayer
    names, hence of at most five entries, each with the string the input
    has under that name; on such a map no access of [MapToPrayers] to its
    slice of five is out of bounds. *)
Theorem FilterPrayers_bounds r r' pm t :
  fair r -> fair r' ->
  match FilterPrayers r pm with
  | Ok m =>
      (forall k, is_Some (m !! k) -> k ∈ prayerNames) /\
      (size m <= 5)%nat /\
      (forall k s, m !! k = Some s -> pm !! k = Some (JString s)) /\
      MapToPrayers r' m t <> Panic SliceIndexOutOfRange
  | Panic e => e = TypeAssertionFailed /\ ~ stringsOnly pm
  end.
Proof.
  intros F F'. rewrite FilterPrayers_fair by done. unfold FilterPrayers_spec.
  destruct (decide (stringsOnly pm)) as [S|S]; [|done].
  pose proof (filterSpec_prayerKeys pm) as K.
  split; [|split; [|split]].
  - intros k Hk. by apply isPrayerName_spec, K.
  - rewrite <- length_map_to_list. by apply prayerKeys_length.
  - intros k s Hs. rewrite lookup_filterSpec in Hs.
    destruct (isPrayerName k); [|done].
    destruct (pm !! k) as [v|]; [|done]. by destruct v; simplify_eq/=.
  - rewrite MapToPrayers_fair by done. unfold MapToPrayers_spec.
    by repeat destruct (decide _).
Qed.

Lemma FilterPrayers_bounds_witness :
  match FilterPrayers rangeReversed sampleTimings with
  | Ok m =>
      (forall k, is_Some (m !! k) -> k ∈ prayerNames) /\
      (size m <= 5)%nat /\
      (forall k s, m !! k = Some s -> sampleTimings !! k = Some (JString s)) /\
      MapToPrayers rangeSorted m sampleNoon <> Panic SliceIndexOutOfRange
  | Panic e => e = TypeAssertionFailed /\ ~ stringsOnly sampleTimings
  end.
Proof.
  apply (FilterPrayers_bounds rangeReversed rangeSorted sampleTimings sampleNoon).
  - apply fair_rangeReversed.
  - apply fair_rangeSorted.
Defined.

(** ** The timings cache *)

Local Ltac io :=
  cbv [mbind mret IO_bind IO_ret statNotExist Println Get Create writeFile
       readFile raise liftResult Now goPlaySound show];
  cbn [files requests stdout sounds display clockReads].

Lemma DownloadTimings_hit cfg env t w content :
  files w !! timingsPathOf cfg t = Some content ->
  DownloadTimings cfg env t w = (Ok (timingsPathOf cfg t), w).
Proof.
  intros H. unfold DownloadTimings. io.
  rewrite bool_decide_eq_false_2 by (rewrite H; discriminate). reflexivity.
Qed.

Lemma DownloadTimings_miss cfg env t w resp :
  files w !! timingsPathOf cfg t = None ->
  httpGet env (requestUrlOf cfg t) = Some resp ->
  creatable env (timingsPathOf cfg t) = true ->
  exists w',
    DownloadTimings cfg env t w = (Ok (timingsPathOf cfg t), w') /\
    files w' = <[timingsPathOf cfg t := Body resp]> (files w) /\
    requests w' = requestUrlOf cfg t :: requests w /\
    stdout w' = "Downloading timings..." :: stdout w /\
    sounds w' = sounds w /\ display w' = display w /\
    clockReads w' = clockReads w.
Proof.
  intros H G C. unfold DownloadTimings. io.
  rewrite bool_decide_eq_true_2 by exact H. rewrite G, C. io.
  eexists. split; [reflexivity|]. cbn [files requests stdout sounds display clockReads].
  rewrite insert_insert_eq. done.
Qed.

Lemma DownloadTimings_neterr cfg env t w :
  files w !! timingsPathOf cfg t = None ->
  httpGet env (requestUrlOf cfg t) = None ->
  exists w',
    DownloadTimings cfg env t w = (Panic HttpGetFailed, w') /\
    files w' = files w /\ requests w' = requestUrlOf cfg t :: requests w.
Proof.
  intros H G. unfold DownloadTimings. io.
  rewrite bool_decide_eq_true_2 by exact H. rewrite G. io.
  eexists. split; [reflexivity|]. done.
Qed.

(** C3: when the file of the date exists, [DownloadTimings] returns its
    path and leaves the world as it is: nothing is fetched, and the file
    reads as the cached payload. Otherwise it requests the month of the
    date with the configured latitude, longitude and method, writes the
    body of the response to the file of the date, and returns the path,
    where the file then reads as that body. *)
Theorem DownloadTimings_cache cfg env t w :
  let path := (timingsDir cfg ++ "timings-" ++ GoTime.FormatDateOnly t ++ ".json")%string in
  let url := (apiUrl ++ "/" ++ fmtInt (GoTime.Year t) ++ "/" ++ fmtInt (GoTime.Month t)
              ++ "?latitude=" ++ latitude cfg ++ "&longitude=" ++ longitude cfg
              ++ "&method=" ++ fmtInt method)%string in
  (forall content, files w !! path = Some content ->
     DownloadTimings cfg env t w = (Ok path, w) /\
     readFile path w = (Ok (Some content), w)) /\
  (forall resp, files w !! path = None -> httpGet env url = Some resp ->
     creatable env path = true ->
     exists w',
       DownloadTimings cfg env t w = (Ok path, w') /\
       requests w' = url :: requests w /\
       files w' = <[path := Body resp]> (files w) /\
       readFile path w' = (Ok (Some (Body resp)), w')).
Proof.
  intros path url. split.
  - intros content H. split; [by apply (DownloadTimings_hit cfg env t w content)|].
    unfold readFile. by rewrite H.
  - intros resp H G C.
    destruct (DownloadTimings_miss cfg env t w resp H G C)
      as (w' & E & Hf & Hr & _).
    exists w'. split; [exact E|]. split; [exact Hr|]. split; [exact Hf|].
    unfold readFile. rewrite Hf. by rewrite lookup_insert_eq.
Qed.

(** C4 as the code has it: on a cache miss, an error of [http.Get] is a
    panic at the fetch and nothing is persisted; a response is persisted
    under the date's key and its path returned whatever its status. *)
Theorem DownloadTimings_fetch cfg env t w :
  files w !! timingsPathOf cfg t = None ->
  (httpGet env (requestUrlOf cfg t) = None ->
   exists e w', DownloadTimings cfg env t w = (Panic e, w') /\ FetchError e /\
                files w' = files w) /\
  (forall resp, httpGet env (requestUrlOf cfg t) = Some resp ->
   creatable env (timingsPathOf cfg t) = true ->
   exists w', DownloadTimings cfg env t w = (Ok (timingsPathOf cfg t), w') /\
              files w' !! timingsPathOf cfg t = Some (Body resp)).
Proof.
  intros H. split.
  - intros G. destruct (DownloadTimings_neterr cfg env t w H G) as (w' & E & Hf & _).
    by exists HttpGetFailed, w'.
  - intros resp G C.
    destruct (DownloadTimings_miss cfg env t w resp H G C) as (w' & E & Hf & _).
    exists w'. split; [exact E|]. rewrite Hf. apply lookup_insert_eq.
Qed.

(** ** The schedule of a day *)

Lemma PrayerTimings_available cfg env t w data :
  available cfg env w t data ->
  exists w',
    PrayerTimings cfg env t w
    = (ParseTimings (unmarshal env) (ranger env) data t, w') /\
    files w' !! timingsPathOf cfg t = Some data /\
    sounds w' = sounds w /\ display w' = display w /\
    clockReads w' = clockReads w.
Proof.
  intros [H|(H & C & resp & G & <-)]; unfold PrayerTimings.
  - exists w. unfold mbind at 1, IO_bind. rewrite (DownloadTimings_hit cfg env t w data H).
    io. rewrite H. done.
  - destruct (DownloadTimings_miss cfg env t w resp H G C)
      as (w' & E & Hf & _ & _ & Hs & Hd & Hc).
    exists w'. unfold mbind at 1, IO_bind. rewrite E. io.
    rewrite Hf, lookup_insert_eq. done.
Qed.

(** ** The prayer clock *)

Lemma scanPrayers_frozen_none env now prayers w :
  frozen env now ->
  Forall (fun p => GoTime.nanos (Time p) <= GoTime.nanos now) prayers ->
  exists w',
    scanPrayers env prayers w = (Ok None, w') /\
    files w' = files w /\ requests w' = requests w /\ stdout w' = stdout w /\
    sounds w' = sounds w /\ display w' = display w.
Proof.
  intros Fz H. revert w. induction H as [|p prayers Hp _ IH]; intros w.
  - by exists w.
  - cbn [scanPrayers]. io. rewrite Fz. unfold GoTime.Before.
    rewrite (proj2 (Z.ltb_ge _ _)) by exact Hp.
    destruct (IH {| clockReads := S (clockReads w); files := files w;
                    requests := requests w; stdout := stdout w;
                    sounds := sounds w; display := display w |})
      as (w' & E & Hrest).
    exists w'. split; [exact E|exact Hrest].
Qed.

Lemma scanPrayers_frozen_some env now pre v post w :
  frozen env now ->
  Forall (fun p => GoTime.nanos (Time p) <= GoTime.nanos now) pre ->
  GoTime.nanos now < GoTime.nanos (Time v) ->
  exists w',
    scanPrayers env (pre ++ v :: post) w = (Ok (Some v), w') /\
    files w' = files w /\ requests w' = requests w /\ stdout w' = stdout w /\
    sounds w' = sounds w /\ display w' = display w.
Proof.
  intros Fz H Hv. revert w. induction H as [|p pre Hp _ IH]; intros w.
  - cbn [app scanPrayers]. io. rewrite Fz. unfold GoTime.Before.
    rewrite (proj2 (Z.ltb_lt _ _)) by exact Hv.
    eexists. split; [reflexivity|]. done.
  - cbn [app scanPrayers]. io. rewrite Fz. unfold GoTime.Before.
    rewrite (proj2 (Z.ltb_ge _ _)) by exact Hp.
    destruct (IH {| clockReads := S (clockReads w); files := files w;
                    requests := requests w; stdout := stdout w;
                    sounds := sounds w; display := display w |})
      as (w' & E & Hrest).
    exists w'. split; [exact E|exact Hrest].
Qed.

(** C5: with the clock at [now] and a prayer later than [now] in the held
    schedule, [NextPrayer] returns the first such prayer in the order of
    the schedule, reports no change, leaves the schedule as it is, and
    touches neither the cache nor the network. *)
Theorem NextPrayer_upcoming cfg env now pre v post w :
  frozen env now ->
  Forall (fun p => GoTime.nanos (Time p) <= GoTime.nanos now) pre ->
  GoTime.nanos now < GoTime.nanos (Time v) ->
  exists w',
    NextPrayer cfg env (pre ++ v :: post) w = (Ok (v, false, pre ++ v :: post), w') /\
    files w' = files w /\ requests w' = requests w.
Proof.
  intros Fz H Hv.
  destruct (scanPrayers_frozen_some env now pre v post w Fz H Hv)
    as (w' & E & Hf & Hr & _).
  exists w'. split; [|by split].
  unfold NextPrayer. unfold mbind at 1, IO_bind. rewrite E. reflexivity.
Qed.

Lemma copySlice_same_length {A} (dst src : list A) :
  length dst = length src -> copySlice dst src = src.
Proof.
  intros L. unfold copySlice. rewrite L, firstn_all.
  rewrite <- L, drop_all. apply app_nil_r.
Qed.

(** C6: with the clock at [now], a held schedule of five prayers none of
    which is later than [now], and the payload of the next day at hand and
    valid, [NextPrayer] reports a change, the held schedule becomes what
    the parser returns for that payload and the next day, and the prayer
    returned is its first, Fajr. *)
Theorem NextPrayer_rollover cfg env now prayers w data pm :
  let tomorrow := GoTime.AddDate now 0 0 1 in
  frozen env now -> fair (ranger env) ->
  length prayers = 5%nat ->
  Forall (fun p => GoTime.nanos (Time p) <= GoTime.nanos now) prayers ->
  available cfg env w tomorrow data ->
  dayTimings (unmarshal env) data tomorrow pm -> validTimings pm ->
  exists fajr held w',
    NextPrayer cfg env prayers w = (Ok (fajr, true, held), w') /\
    ParseTimings (unmarshal env) (ranger env) data tomorrow = Ok held /\
    held !! 0%nat = Some fajr /\ Name fajr = "Fajr" /\
    files w' !! timingsPathOf cfg tomorrow = Some data.
Proof.
  intros tomorrow Fz F L H Av D V.
  destruct (scanPrayers_frozen_none env now prayers w Fz H)
    as (w1 & E1 & Hf1 & _).
  set (w2 := {| clockReads := S (clockReads w1); files := files w1;
                requests := requests w1; stdout := stdout w1;
                sounds := sounds w1; display := display w1 |}).
  assert (Av2 : available cfg env w2 tomorrow data).
  { unfold available in *. cbn [files w2]. by rewrite Hf1. }
  destruct (PrayerTimings_available cfg env tomorrow w2 data Av2)
    as (w3 & E3 & Hf3 & _).
  pose proof (ParseTimings_valid (unmarshal env) (ranger env) data tomorrow pm F D V)
    as P.
  set (held := canonical tomorrow (filterSpec pm)) in *.
  exists (toPrayer tomorrow ("Fajr", default "" (filterSpec pm !! "Fajr"))), held, w3.
  split; [|by repeat split].
  unfold NextPrayer. unfold mbind at 1, IO_bind. rewrite E1.
  unfold mbind at 1, IO_bind. unfold Now at 1. rewrite Fz. fold w2. fold tomorrow.
  unfold mbind at 1, IO_bind. rewrite E3, P.
  rewrite copySlice_same_length by (rewrite L; reflexivity).
  reflexivity.
Qed.

(** ** The timer *)

Lemma scanPrayers_sounds env prayers : forall w,
  sounds (scanPrayers env prayers w).2 = sounds w.
Proof.
  induction prayers as [|p prayers IH]; intros w; [done|].
  cbn [scanPrayers]. io. destruct (GoTime.Before _ _); [done|].
  by rewrite IH.
Qed.

Lemma DownloadTimings_sounds cfg env t w :
  sounds (DownloadTimings cfg env t w).2 = sounds w.
Proof.
  unfold DownloadTimings. io.
  destruct (bool_decide _); [|done].
  destruct (httpGet env _); [|done]. destruct (creatable env _); done.
Qed.

Lemma PrayerTimings_sounds cfg env t w :
  sounds (PrayerTimings cfg env t w).2 = sounds w.
Proof.
  unfold PrayerTimings. unfold mbind at 1, IO_bind.
  pose proof (DownloadTimings_sounds cfg env t w) as H.
  destruct (DownloadTimings cfg env t w) as [[path|e] w1]; [|done].
  io. by destruct (files w1 !! path).
Qed.

Lemma NextPrayer_sounds cfg env prayers w :
  sounds (NextPrayer cfg env prayers w).2 = sounds w.
Proof.
  unfold NextPrayer. unfold mbind at 1, IO_bind.
  pose proof (scanPrayers_sounds env prayers w) as H.
  destruct (scanPrayers env prayers w) as [[[v|]|e] w1]; [done| |done].
  cbn [snd] in H.
  unfold mbind at 1, IO_bind, Now at 1.
  unfold mbind at 1, IO_bind.
  match goal with |- context [PrayerTimings cfg env ?t ?w2] =>
    pose proof (PrayerTimings_sounds cfg env t w2) as H2;
    destruct (PrayerTimings cfg env t w2) as [[new|e] w3]
  end; cbn [snd sounds] in H2.
  - io. destruct (sliceGet _ 0); cbn [snd]; congruence.
  - cbn [snd]. congruence.
Qed.

(** C2 as the code has it: at a tick, with [remaining] the time from the
    clock to the next prayer rounded to the second, the tick starts the
    pre-reminder sound exactly when [remaining] is the configured lead
    time, the arrival sound exactly when [remaining] is one second, each
    at most once, and no other sound. *)
Theorem timerAction_sounds cfg env prayers w np changed held w1 :
  NextPrayer cfg env prayers w = (Ok (np, changed, held), w1) ->
  let now := clock env (clockReads w1) in
  let remaining := GoTime.Round (GoTime.Sub (Time np) now) GoTime.Second in
  exists w2,
    timerAction cfg env prayers w = (Ok held, w2) /\
    sounds w2 =
      (if remaining =? GoTime.Second then ["adhan.wav"] else []) ++
      (if remaining =? remindBefore cfg then ["tasbih.wav"] else []) ++
      sounds w.
Proof.
  intros E now remaining.
  pose proof (NextPrayer_sounds cfg env prayers w) as S. rewrite E in S. simpl in S.
  unfold timerAction. unfold mbind at 1, IO_bind. rewrite E.
  unfold FormatNextPrayer. io. fold now. fold remaining.
  destruct changed; io; fold now; fold remaining;
    destruct (remaining =? remindBefore cfg), (remaining =? GoTime.Second); io;
    eexists; (split; [reflexivity|]); cbn [sounds app]; by rewrite S.
Qed.

(** ** Sample runs *)

(** C2 as stated fails: at this tick the next prayer, Dhuhr, is four
    tenths of a second away, which rounds to zero seconds, and no sound is
    started. *)
Lemma arrival_silent_at_zero :
  NextPrayer defaultConfig (sampleEnv instantToDhuhr) (sampleSchedule 2) emptyWorld
  = (Ok (mkPrayer "Dhuhr" (GoTime.Date 2024 6 2 11 45 0 0 10800), false,
         sampleSchedule 2), afterReads 2) /\
  GoTime.Round (GoTime.Sub (GoTime.Date 2024 6 2 11 45 0 0 10800) instantToDhuhr)
               GoTime.Second = 0 /\
  sounds (timerAction defaultConfig (sampleEnv instantToDhuhr) (sampleSchedule 2)
                      emptyWorld).2 = [].
Proof. split; [|split]; vm_compute; reflexivity. Qed.

Lemma timerAction_sounds_witness :
  exists w2,
    timerAction defaultConfig (sampleEnv secondToDhuhr) (sampleSchedule 2) emptyWorld
    = (Ok (sampleSchedule 2), w2) /\
    sounds w2 = ["adhan.wav"].
Proof.
  apply (timerAction_sounds defaultConfig (sampleEnv secondToDhuhr) (sampleSchedule 2)
           emptyWorld (mkPrayer "Dhuhr" (GoTime.Date 2024 6 2 11 45 0 0 10800)) false
           (sampleSchedule 2) (afterReads 2)).
  vm_compute; reflexivity.
Defined.

(** The file and the request of 2024-06-02. *)
Lemma sample_paths :
  timingsPathOf defaultConfig sampleNoon = "./timings-2024-06-02.json" /\
  requestUrlOf defaultConfig sampleNoon
  = "https://api.aladhan.com/v1/calendar/2024/6?latitude=30.983334&longitude=41.016666&method=4".
Proof. split; vm_compute; reflexivity. Qed.

Lemma DownloadTimings_cache_witness :
  (DownloadTimings defaultConfig (sampleEnv sampleNoon) sampleNoon cachedWorld
   = (Ok (timingsPathOf defaultConfig sampleNoon), cachedWorld) /\
   readFile (timingsPathOf defaultConfig sampleNoon) cachedWorld
   = (Ok (Some "june"), cachedWorld)) /\
  (exists w',
     DownloadTimings defaultConfig (sampleEnv sampleNoon) sampleNoon emptyWorld
     = (Ok (timingsPathOf defaultConfig sampleNoon), w') /\
     requests w' = [requestUrlOf defaultConfig sampleNoon] /\
     files w' = {[ timingsPathOf defaultConfig sampleNoon := "june" ]} /\
     readFile (timingsPathOf defaultConfig sampleNoon) w' = (Ok (Some "june"), w')).
Proof.
  split.
  - apply (proj1 (DownloadTimings_cache defaultConfig (sampleEnv sampleNoon) sampleNoon
                    cachedWorld) "june").
    apply lookup_singleton_eq.
  - apply (proj2 (DownloadTimings_cache defaultConfig (sampleEnv sampleNoon) sampleNoon
                    emptyWorld) {| StatusCode := 200; Body := "june" |}).
    + apply lookup_empty.
    + reflexivity.
    + reflexivity.
Defined.

(** C4 as stated fails: the provider answers 404, and [DownloadTimings]
    does not panic: it writes the body to the file of the date and returns
    the path. *)
Lemma notFound_persisted :
  (StatusCode <$> httpGet (notFoundEnv sampleNoon) (requestUrlOf defaultConfig sampleNoon))
  = Some 404 /\
  (DownloadTimings defaultConfig (notFoundEnv sampleNoon) sampleNoon emptyWorld).1
  = Ok "./timings-2024-06-02.json" /\
  files (DownloadTimings defaultConfig (notFoundEnv sampleNoon) sampleNoon emptyWorld).2
    !! "./timings-2024-06-02.json" = Some "Not Found".
Proof. split; [|split]; vm_compute; reflexivity. Qed.

Lemma DownloadTimings_fetch_witness :
  exists w',
    DownloadTimings defaultConfig (notFoundEnv sampleNoon) sampleNoon emptyWorld
    = (Ok (timingsPathOf defaultConfig sampleNoon), w') /\
    files w' !! timingsPathOf defaultConfig sampleNoon = Some "Not Found".
Proof.
  apply (proj2 (DownloadTimings_fetch defaultConfig (notFoundEnv sampleNoon) sampleNoon
                  emptyWorld (lookup_empty _)) {| StatusCode := 404; Body := "Not Found" |}).
  - reflexivity.
  - reflexivity.
Defined.

Lemma NextPrayer_upcoming_witness :
  exists w',
    NextPrayer defaultConfig (sampleEnv sampleDawn) (sampleSchedule 2) emptyWorld
    = (Ok (mkPrayer "Fajr" (GoTime.Date 2024 6 2 4 30 0 0 10800), false,
           sampleSchedule 2), w') /\
    files w' = ∅ /\ requests w' = [].
Proof.
  apply (NextPrayer_upcoming defaultConfig (sampleEnv sampleDawn) sampleDawn []
           (mkPrayer "Fajr" (GoTime.Date 2024 6 2 4 30 0 0 10800))
           (tail (sampleSchedule 2)) emptyWorld).
  - intros k. reflexivity.
  - constructor.
  - vm_compute; reflexivity.
Defined.

Lemma NextPrayer_rollover_witness :
  exists fajr held w',
    NextPrayer defaultConfig (sampleEnv sampleEvening) (sampleSchedule 1) emptyWorld
    = (Ok (fajr, true, held), w') /\
    ParseTimings sampleUnmarshal rangeReversed "june"
                 (GoTime.AddDate sampleEvening 0 0 1) = Ok held /\
    held !! 0%nat = Some fajr /\ Name fajr = "Fajr" /\
    files w' !! timingsPathOf defaultConfig (GoTime.AddDate sampleEvening 0 0 1)
    = Some "june".
Proof.
  apply (NextPrayer_rollover defaultConfig (sampleEnv sampleEvening) sampleEvening
           (sampleSchedule 1) emptyWorld "june" sampleTimings).
  - intros k. reflexivity.
  - apply fair_rangeReversed.
  - reflexivity.
  - repeat constructor; vm_compute; discriminate.
  - right. split; [apply lookup_empty|]. split; [reflexivity|].
    eexists. split; reflexivity.
  - exists sampleMonth, {[ "timings" := JObject sampleTimings ]}.
    split; [reflexivity|]. split; [|apply lookup_singleton_eq].
    vm_compute; reflexivity.
  - apply sample_validTimings.
Defined.

(** ** The calendar *)

Lemma allFrom_spec f n : forall d k,
  allFrom f n d = true -> d <= k < d + Z.of_nat n -> f k = true.
Proof.
  induction n as [|n IH]; intros d k H Hk; [lia|].
  cbn [allFrom] in H. destruct (f d) eqn:E; [|discriminate].
  destruct (decide (k = d)) as [->|Hne]; [exact E|].
  apply (IH (d + 1)); [exact H|lia].
Qed.

(** The conversions agree on every day of one cycle of 400 years, by
    evaluation. *)
Lemma calOK_cycle : allFrom calOK (Z.to_nat 146097) 0 = true.
Proof. vm_compute. reflexivity. Qed.

Lemma calOK_small d : 0 <= d < 146097 -> calOK d = true.
Proof.
  intros H. apply (allFrom_spec calOK (Z.to_nat 146097) 0 d calOK_cycle). lia.
Qed.

Lemma yearOfDays_cycle d :
  GoTime.yearOfDays d
  = (let '(y, yd) := GoTime.yearOfDays (d mod 146097) in (y + 400 * (d / 146097), yd)).
Proof.
  unfold GoTime.yearOfDays, GoTime.daysPer400Years. cbv zeta.
  rewrite (Z.div_small (d mod 146097) 146097) by (apply Z.mod_pos_bound; lia).
  replace (d - 146097 * (d / 146097)) with (d mod 146097)
    by (rewrite Z.mod_eq by lia; lia).
  replace (d mod 146097 - 146097 * 0) with (d mod 146097) by lia.
  f_equal. lia.
Qed.

Lemma isLeap_cycle y q : GoTime.isLeap (y + 400 * q) = GoTime.isLeap y.
Proof.
  unfold GoTime.isLeap.
  replace (y + 400 * q) with (y + (100 * q) * 4) at 1 by lia.
  replace (y + 400 * q) with (y + (4 * q) * 100) at 1 by lia.
  replace (y + 400 * q) with (y + q * 400) by lia.
  by rewrite !Z_mod_plus_full.
Qed.

Lemma daysBeforeYear_cycle y q :
  GoTime.daysBeforeYear (y + 400 * q) = GoTime.daysBeforeYear y + 146097 * q.
Proof.
  unfold GoTime.daysBeforeYear. cbv zeta.
  replace (y + 400 * q - 1) with (y - 1 + 400 * q) by lia.
  replace (y - 1 + 400 * q) with (y - 1 + (100 * q) * 4) at 2 by lia.
  replace (y - 1 + 400 * q) with (y - 1 + (4 * q) * 100) at 2 by lia.
  replace (y - 1 + 400 * q) with (y - 1 + q * 400) at 2 by lia.
  rewrite !Z.div_add by lia. lia.
Qed.

Lemma daysBeforeMonth_cycle y m q :
  GoTime.daysBeforeMonth (y + 400 * q) m = GoTime.daysBeforeMonth y m + 146097 * q.
Proof.
  unfold GoTime.daysBeforeMonth. rewrite isLeap_cycle, daysBeforeYear_cycle. lia.
Qed.

Lemma monthOfYday_cycle y q yd :
  GoTime.monthOfYday (y + 400 * q) yd = GoTime.monthOfYday y yd.
Proof. unfold GoTime.monthOfYday. by rewrite isLeap_cycle. Qed.

Lemma calOK_all d : calOK d = true.
Proof.
  pose proof (calOK_small (d mod 146097)) as H.
  assert (R : 0 <= d mod 146097 < 146097) by (apply Z.mod_pos_bound; lia).
  specialize (H R). unfold calOK in *. rewrite yearOfDays_cycle.
  destruct (GoTime.yearOfDays (d mod 146097)) as [y yd].
  rewrite monthOfYday_cycle, ?daysBeforeMonth_cycle.
  destruct (GoTime.monthOfYday y yd) as [m dd].
  rewrite daysBeforeMonth_cycle.
  apply andb_true_iff in H as [H H4]. rewrite H. cbn [andb].
  apply Z.eqb_eq in H4. apply Z.eqb_eq.
  rewrite (Z.div_mod d 146097) at 2 by lia. lia.
Qed.

(** The year, month and day of a day number give that day number back. *)
Lemma civil_roundtrip d y yd m dd :
  GoTime.yearOfDays d = (y, yd) -> GoTime.monthOfYday y yd = (m, dd) ->
  1 <= m <= 12 /\ 1 <= dd /\ GoTime.daysBeforeMonth y m + (dd - 1) = d.
Proof.
  intros Hy Hm. pose proof (calOK_all d) as H. unfold calOK in H.
  rewrite Hy, Hm in H.
  repeat (apply andb_true_iff in H as [H ?]).
  rewrite ?Z.leb_le, ?Z.eqb_eq in *. lia.
Qed.

Lemma dateOf_spec t y m d :
  GoTime.dateOf t = (y, m, d) ->
  1 <= m <= 12 /\ 1 <= d /\
  GoTime.daysBeforeMonth y m + (d - 1) = GoTime.absSec t / GoTime.secondsPerDay.
Proof.
  unfold GoTime.dateOf.
  destruct (GoTime.yearOfDays _) as [y' yd] eqn:Hy.
  destruct (GoTime.monthOfYday y' yd) as [m' d'] eqn:Hm.
  intros [= <- <- <-]. by apply (civil_roundtrip _ _ yd).
Qed.

Lemma Date_nanos y m d h mi s ns z :
  1 <= m <= 12 ->
  GoTime.Date y m d h mi s ns z
  = GoTime.mkTime
      (((GoTime.daysBeforeMonth y m + (d - 1) - GoTime.unixEpochDays) * 86400
        + h * 3600 + mi * 60 + s - z) * 1000000000 + ns) z.
Proof.
  intros Hm. unfold GoTime.Date, GoTime.secondsPerDay. cbv zeta.
  rewrite (Z.div_small (m - 1) 12), (Z.mod_small (m - 1) 12) by lia.
  by replace (y + 0) with y by lia; replace (m - 1 + 1) with m by lia.
Qed.

Lemma clockOf_sum t h mi s :
  GoTime.clockOf t = (h, mi, s) ->
  h * 3600 + mi * 60 + s = GoTime.absSec t mod GoTime.secondsPerDay.
Proof.
  unfold GoTime.clockOf. cbv zeta. intros [= <- <- <-].
  generalize (GoTime.absSec t mod GoTime.secondsPerDay). intros x.
  Z.div_mod_to_equations. lia.
Qed.

(** [AddDate(0, 0, 1)] is the instant 24 hours later, in the same zone. *)
Lemma AddDate_day t :
  GoTime.AddDate t 0 0 1
  = GoTime.mkTime (GoTime.nanos t + 86400 * 1000000000) (GoTime.offset t).
Proof.
  unfold GoTime.AddDate.
  destruct (GoTime.dateOf t) as [[y m] d] eqn:Hd.
  destruct (GoTime.clockOf t) as [[h mi] s] eqn:Hc.
  destruct (dateOf_spec t y m d Hd) as (Hm & _ & Hday).
  pose proof (clockOf_sum t h mi s Hc) as Hsum.
  replace (y + 0) with y by lia. replace (m + 0) with m by lia.
  rewrite Date_nanos by exact Hm. f_equal.
  unfold GoTime.nsecOf.
  replace (d + 1 - 1) with (d - 1 + 1) by lia.
  pose proof (Z.div_mod (GoTime.absSec t) GoTime.secondsPerDay ltac:(unfold GoTime.secondsPerDay; lia)) as DM.
  pose proof (Z.div_mod (GoTime.nanos t) 1000000000 ltac:(lia)) as DN.
  unfold GoTime.absSec, GoTime.secondsPerDay, GoTime.unixEpochDays in *.
  lia.
Qed.

Lemma digitVal_range c : isDigit c = true -> 0 <= digitVal c <= 9.
Proof.
  unfold isDigit, digitVal. intros H. apply andb_true_iff in H as [H1 H2].
  apply Z.leb_le in H1, H2. lia.
Qed.

Lemma getnum_range s fixed n rest :
  GoTime.getnum s fixed = Some (n, rest) -> 0 <= n <= 99.
Proof.
  unfold GoTime.getnum. destruct s as [|a s1]; [discriminate|].
  destruct (isDigit a) eqn:Da; [|discriminate].
  pose proof (digitVal_range a Da).
  destruct s1 as [|b s2].
  - destruct fixed; [discriminate|]. intros [= <- <-]. lia.
  - destruct (isDigit b) eqn:Db.
    + pose proof (digitVal_range b Db). intros [= <- <-]. lia.
    + destruct fixed; [discriminate|]. intros [= <- <-]. lia.
Qed.

(** What [time.Parse] returns is a time of day on 0000-01-01. *)
Lemma Parse_inv value parsed :
  GoTime.Parse value = Some parsed ->
  exists h mi z,
    parsed = GoTime.Date 0 1 1 h mi 0 0 z /\ 0 <= h < 24 /\ 0 <= mi < 60.
Proof.
  unfold GoTime.Parse.
  destruct (GoTime.getnum value false) as [[h v1]|] eqn:Eh; [|discriminate].
  cbn [mbind option_bind].
  destruct (24 <=? h) eqn:Hh; [discriminate|].
  destruct (GoTime.skipByte v1 ":") as [v2|]; [|discriminate].
  cbn [mbind option_bind].
  destruct (GoTime.getnum v2 true) as [[mi v3]|] eqn:Em; [|discriminate].
  cbn [mbind option_bind].
  destruct (60 <=? mi) eqn:Hm; [discriminate|].
  destruct (GoTime.skipSpaces v3) as [v4|]; [|discriminate].
  cbn [mbind option_bind].
  destruct (GoTime.skipByte v4 "(") as [v5|]; [|discriminate].
  cbn [mbind option_bind].
  destruct v5 as [|sign [|h1 [|h2 v6]]]; try discriminate.
  destruct (GoTime.getnum (String h1 _) true) as [[hr v7]|]; [|discriminate].
  cbn [mbind option_bind].
  destruct (24 <? hr); [discriminate|].
  destruct (if Ascii.eqb sign "+" then _ else _) as [z|]; [|discriminate].
  cbn [mbind option_bind].
  destruct (GoTime.skipByte v6 ")") as [v8|]; [|discriminate].
  cbn [mbind option_bind].
  destruct v8; [|discriminate]. intros [= <-].
  apply getnum_range in Eh, Em. apply Z.leb_gt in Hh, Hm.
  exists h, mi, z. split; [reflexivity|lia].
Qed.

(** A time of day moved to the date of [t]. *)
Lemma onDateOf_nanos t h mi z :
  0 <= h < 24 -> 0 <= mi < 60 ->
  onDateOf t (GoTime.Date 0 1 1 h mi 0 0 z)
  = GoTime.mkTime
      (((GoTime.absSec t / 86400 - GoTime.unixEpochDays) * 86400
        + h * 3600 + mi * 60 - z) * 1000000000) z.
Proof.
  intros Hh Hmi. unfold onDateOf, GoTime.AddDate.
  rewrite Date_nanos by lia.
  set (p := GoTime.mkTime _ z).
  assert (Habs : GoTime.absSec p = -366 * 86400 + (h * 3600 + mi * 60)).
  { unfold GoTime.absSec, p. cbn [GoTime.nanos GoTime.offset].
    change (GoTime.daysBeforeMonth 0 1) with (-366).
    unfold GoTime.unixEpochDays, GoTime.secondsPerDay.
    rewrite Z.add_0_r, Z.div_mul by lia. lia. }
  assert (Hd : GoTime.dateOf p = (0, 1, 1)).
  { unfold GoTime.dateOf. rewrite Habs. unfold GoTime.secondsPerDay.
    rewrite Z.div_add_l by lia. rewrite Z.div_small by lia. reflexivity. }
  assert (Hc : GoTime.clockOf p = (h, mi, 0)).
  { unfold GoTime.clockOf. rewrite Habs. unfold GoTime.secondsPerDay. cbv zeta.
    replace ((-366 * 86400 + (h * 3600 + mi * 60)) mod 86400)
      with (h * 3600 + mi * 60)
      by (Z.div_mod_to_equations; lia).
    f_equal; [f_equal|]; Z.div_mod_to_equations; lia. }
  assert (Hn : GoTime.nsecOf p = 0).
  { unfold GoTime.nsecOf, p. cbn [GoTime.nanos].
    rewrite Z.add_0_r. apply Z_mod_mult. }
  rewrite Hd, Hc, Hn. unfold p. cbn [GoTime.offset].
  unfold GoTime.Year, GoTime.Month, GoTime.Day.
  destruct (GoTime.dateOf t) as [[y m] d] eqn:Ht.
  destruct (dateOf_spec t y m d Ht) as (Hm & _ & Hday).
  replace (1 + (m - 1)) with m by lia. replace (0 + y) with y by lia.
  rewrite Date_nanos by exact Hm. unfold GoTime.secondsPerDay in Hday.
  f_equal. lia.
Qed.

(** A prayer time of the day after [now], given in the zone of [now], is
    later than [now]. *)
Lemma now_before_tomorrow now value parsed :
  GoTime.Parse value = Some parsed ->
  GoTime.offset parsed = GoTime.offset now ->
  GoTime.nanos now
  < GoTime.nanos (onDateOf (GoTime.AddDate now 0 0 1) parsed).
Proof.
  intros P Hz. destruct (Parse_inv value parsed P) as (h & mi & z & -> & Hh & Hmi).
  rewrite onDateOf_nanos by done. rewrite AddDate_day.
  unfold GoTime.Date in Hz. cbn [GoTime.offset] in Hz. subst z.
  cbn [GoTime.nanos]. unfold GoTime.absSec. cbn [GoTime.nanos GoTime.offset].
  unfold GoTime.unixEpochDays, GoTime.secondsPerDay.
  generalize (GoTime.nanos now) (GoTime.offset now). intros n z.
  Z.div_mod_to_equations. lia.
Qed.

(** ** Calling twice *)

Lemma MapToPrayers_spec_Ok m t new :
  MapToPrayers_spec m t = Ok new ->
  new = canonical t m /\ map_Forall (fun _ v => parseable v) m /\
  Forall (fun k => is_Some (m !! k)) prayerNames.
Proof.
  unfold MapToPrayers_spec.
  destruct (decide (map_Forall _ m)) as [P|]; [|discriminate].
  destruct (decide (Forall _ prayerNames)) as [H5|]; [|discriminate].
  by intros [= <-].
Qed.

Lemma rbind_Ok_inv {A B} (r : result A) (k : A -> result B) b :
  r ≫= k = Ok b -> exists a, r = Ok a /\ k a = Ok b.
Proof. destruct r as [a|e]; [|discriminate]. intros H. by exists a. Qed.

(** A schedule that the parser returns is the canonical one of a map
    that has the five names with parseable strings. *)
Lemma ParseTimings_Ok_inv unmarshal r data t new :
  fair r -> ParseTimings unmarshal r data t = Ok new ->
  exists m, new = canonical t m /\ map_Forall (fun _ v => parseable v) m /\
            Forall (fun k => is_Some (m !! k)) prayerNames.
Proof.
  intros F. rewrite ParseTimings_fair by exact F. unfold ParseTimings_spec.
  intros H.
  apply rbind_Ok_inv in H as (Data & _ & H).
  apply rbind_Ok_inv in H as (entry & _ & H).
  apply rbind_Ok_inv in H as (todayData & _ & H).
  apply rbind_Ok_inv in H as (pm & _ & H).
  apply rbind_Ok_inv in H as (m & _ & H).
  exists m. by apply MapToPrayers_spec_Ok.
Qed.

Lemma PrayerTimings_Ok_inv cfg env t w new w' :
  PrayerTimings cfg env t w = (Ok new, w') ->
  exists data, ParseTimings (unmarshal env) (ranger env) data t = Ok new.
Proof.
  unfold PrayerTimings. unfold mbind at 1, IO_bind.
  destruct (DownloadTimings cfg env t w) as [[path|e] w1]; [|discriminate].
  io. destruct (files w1 !! path) as [data|]; [|discriminate].
  intros [= H _]. by exists data.
Qed.

Lemma NextPrayer_true_inv cfg env now prayers w e held w' :
  frozen env now ->
  NextPrayer cfg env prayers w = (Ok (e, true, held), w') ->
  exists new data,
    ParseTimings (unmarshal env) (ranger env) data (GoTime.AddDate now 0 0 1) = Ok new /\
    held = copySlice prayers new /\ held !! 0%nat = Some e.
Proof.
  intros Fz. unfold NextPrayer. unfold mbind at 1, IO_bind.
  destruct (scanPrayers env prayers w) as [[[v|]|e0] w1]; [discriminate| |discriminate].
  unfold mbind at 1, IO_bind, Now at 1. rewrite Fz.
  unfold mbind at 1, IO_bind.
  destruct (PrayerTimings cfg env _ _) as [[new|e0] w3] eqn:E3; [|discriminate].
  apply PrayerTimings_Ok_inv in E3 as [data P].
  io. unfold sliceGet.
  destruct (copySlice prayers new !! 0%nat) as [first|] eqn:E0; [|discriminate].
  intros [= <- <- _]. by exists new, data.
Qed.

Lemma copySlice_head {A} (dst src : list A) x y :
  copySlice dst src !! 0%nat = Some x -> src !! 0%nat = Some y -> x = y.
Proof.
  unfold copySlice. destruct dst as [|d dst].
  - simpl. rewrite drop_nil. discriminate.
  - destruct src as [|s src]; [discriminate|]. simpl. congruence.
Qed.

Lemma canonical_head t m :
  canonical t m !! 0%nat
  = Some (toPrayer t ("Fajr", default "" (m !! "Fajr"))).
Proof. reflexivity. Qed.

Lemma toPrayer_Time t k s parsed :
  GoTime.Parse s = Some parsed -> Time (toPrayer t (k, s)) = onDateOf t parsed.
Proof. intros H. unfold toPrayer. cbn [Time snd]. by rewrite H. Qed.

Lemma onDateOf_offset t parsed :
  GoTime.offset (onDateOf t parsed) = GoTime.offset parsed.
Proof.
  unfold onDateOf, GoTime.AddDate.
  destruct (GoTime.dateOf parsed) as [[? ?] ?], (GoTime.clockOf parsed) as [[? ?] ?].
  reflexivity.
Qed.

(** C7 as the code has it: with the clock at [now], if a call returned
    [e] after a rollover and the time of [e] carries the UTC offset of
    [now], then the next call returns [e] again, reports no change, keeps
    the schedule, and touches neither the cache nor the network. *)
Theorem NextPrayer_twice cfg env now prayers w e held w' :
  frozen env now -> fair (ranger env) ->
  NextPrayer cfg env prayers w = (Ok (e, true, held), w') ->
  GoTime.offset (Time e) = GoTime.offset now ->
  exists w'',
    NextPrayer cfg env held w' = (Ok (e, false, held), w'') /\
    files w'' = files w' /\ requests w'' = requests w'.
Proof.
  intros Fz F E Hz.
  destruct (NextPrayer_true_inv cfg env now prayers w e held w' Fz E)
    as (new & data & P & Hheld & H0).
  destruct (ParseTimings_Ok_inv _ _ _ _ _ F P) as (m & -> & Pm & H5).
  inversion_clear H5 as [|? ? [s Hs] _].
  destruct (Pm "Fajr" s Hs) as [parsed Hp].
  assert (He : e = toPrayer (GoTime.AddDate now 0 0 1) ("Fajr", s)).
  { rewrite Hheld in H0. apply (copySlice_head _ _ _ _ H0).
    rewrite canonical_head, Hs. reflexivity. }
  assert (Hlater : GoTime.nanos now < GoTime.nanos (Time e)).
  { rewrite He in Hz |- *.
    rewrite (toPrayer_Time _ _ _ parsed Hp) in Hz |- *.
    rewrite onDateOf_offset in Hz.
    exact (now_before_tomorrow now s parsed Hp Hz). }
  destruct held as [|e0 rest]; [discriminate|].
  injection H0 as ->.
  destruct (scanPrayers_frozen_some env now [] e rest w' Fz (Forall_nil_2 _) Hlater)
    as (w'' & Es & Hf & Hr & _).
  exists w''. split; [|by split].
  unfold NextPrayer. unfold mbind at 1, IO_bind.
  cbn [app] in Es. rewrite Es. reflexivity.
Qed.

Lemma NextPrayer_twice_witness :
  exists w'',
    NextPrayer defaultConfig (sampleEnv sampleEvening) (sampleSchedule 2) rolledWorld
    = (Ok (sampleFajr 2, false, sampleSchedule 2), w'') /\
    files w'' = files rolledWorld /\ requests w'' = requests rolledWorld.
Proof.
  apply (NextPrayer_twice defaultConfig (sampleEnv sampleEvening) sampleEvening
           (sampleSchedule 1) emptyWorld (sampleFajr 2) (sampleSchedule 2) rolledWorld).
  - intros k. reflexivity.
  - apply fair_rangeReversed.
  - vm_compute. reflexivity.
  - reflexivity.
Defined.

(** C7 as stated fails: on a machine at -08:00 with the provider at
    +03:00, at 23:00 of the first of June the schedule of the day, which
    is the one [PrayerTimings] gives for that instant, is exhausted; the
    first call rolls over and returns the Fajr of the second of June,
    which is already past; the second call, with the same clock, returns
    Dhuhr. *)
Lemma rollover_west_not_idempotent :
  (PrayerTimings defaultConfig (sampleEnv sampleWest) sampleWest emptyWorld).1
  = Ok (sampleSchedule 1) /\
  (NextPrayer defaultConfig (sampleEnv sampleWest) (sampleSchedule 1) emptyWorld).1
  = Ok (sampleFajr 2, true, sampleSchedule 2) /\
  (NextPrayer defaultConfig (sampleEnv sampleWest) (sampleSchedule 2)
     (NextPrayer defaultConfig (sampleEnv sampleWest) (sampleSchedule 1) emptyWorld).2).1
  = Ok (sampleDhuhr 2, false, sampleSchedule 2) /\
  sampleFajr 2 <> sampleDhuhr 2.
Proof. repeat split; try (vm_compute; reflexivity). discriminate. Qed.

(** ** More on sorting *)

Lemma insRev_filter_rank r x rp :
  filter (fun p => rank p = r) (insRev x rp)
  = filter (fun p => rank p = r) (x :: rp).
Proof.
  induction rp as [|y rp IH]; [done|].
  cbn [insRev]. destruct (rank x <? rank y) eqn:E; [|done].
  apply Z.ltb_lt in E.
  rewrite filter_cons, IH, !filter_cons.
  destruct (decide (rank y = r)), (decide (rank x = r)); try done; lia.
Qed.

Lemma sortedRev_filter_rank r data :
  filter (fun p => rank p = r) (reverse (sortedRev data))
  = filter (fun p => rank p = r) data.
Proof.
  unfold sortedRev.
  enough (forall rp,
    filter (fun p => rank p = r) (reverse (foldl (fun rp x => insRev x rp) rp data))
    = filter (fun p => rank p = r) (reverse rp ++ data)) as H by apply (H []).
  induction data as [|x data IH]; intros rp; simpl.
  - by rewrite app_nil_r.
  - rewrite IH, !filter_app, !filter_reverse, insRev_filter_rank.
    rewrite !filter_cons. destruct (decide (rank x = r)); [|done].
    by rewrite reverse_cons, <- app_assoc.
Qed.

(** X1: on a slice of at most twelve prayers whose names all have a first
    byte, [sort.Sort] over [Len], [Less] and [Swap] succeeds and returns
    the same prayers in ascending order of the position of the first byte
    of the name in ["FDAMI"], first bytes outside the table first. *)
Theorem Sort_sorts data :
  (length data <= 12)%nat -> Forall named data ->
  exists sorted,
    Sort data = Ok sorted /\ sorted ≡ₚ data /\
    StronglySorted (fun a b => rank a <= rank b) sorted.
Proof.
  intros _ N. exists (reverse (sortedRev data)). split; [by apply Sort_named|].
  split.
  - by rewrite reverse_Permutation, sortedRev_perm.
  - apply descending_reverse, sortedRev_descending.
Qed.

(** X2: the sort is stable: prayers whose names begin with the same byte,
    or with bytes that are both outside the table, come out in the order
    they went in. *)
Theorem Sort_stable data sorted r :
  (length data <= 12)%nat -> Sort data = Ok sorted ->
  filter (fun p => rank p = r) sorted = filter (fun p => rank p = r) data.
Proof.
  intros _ H.
  destruct (decide (Forall named data)) as [N|N].
  - rewrite Sort_named in H by exact N. injection H as <-.
    apply sortedRev_filter_rank.
  - destruct (decide (2 <= length data)%nat) as [L|L].
    + rewrite Sort_unnamed in H by done. discriminate.
    + unfold Sort, Len in H. rewrite decide_True in H by lia. by injection H as <-.
Qed.


Lemma Sort_sorts_witness :
  exists sorted,
    Sort [mkPrayer "Isha" GoTime.zeroTime; mkPrayer "Sunrise" GoTime.zeroTime;
          mkPrayer "Fajr" GoTime.zeroTime] = Ok sorted /\
    sorted ≡ₚ [mkPrayer "Isha" GoTime.zeroTime; mkPrayer "Sunrise" GoTime.zeroTime;
               mkPrayer "Fajr" GoTime.zeroTime] /\
    StronglySorted (fun a b => rank a <= rank b) sorted.
Proof.
  apply (Sort_sorts [mkPrayer "Isha" GoTime.zeroTime; mkPrayer "Sunrise" GoTime.zeroTime;
                     mkPrayer "Fajr" GoTime.zeroTime]).
  - simpl. lia.
  - repeat constructor; discriminate.
Defined.

Lemma Sort_stable_witness :
  filter (fun p => rank p = -1)
    [mkPrayer "Sunset" GoTime.zeroTime; mkPrayer "Sunrise" GoTime.zeroTime;
     mkPrayer "Fajr" GoTime.zeroTime; mkPrayer "Midnight" GoTime.zeroTime]
  = filter (fun p => rank p = -1)
    [mkPrayer "Midnight" GoTime.zeroTime; mkPrayer "Sunset" GoTime.zeroTime;
     mkPrayer "Fajr" GoTime.zeroTime; mkPrayer "Sunrise" GoTime.zeroTime].
Proof.
  apply (Sort_stable
           [mkPrayer "Midnight" GoTime.zeroTime; mkPrayer "Sunset" GoTime.zeroTime;
            mkPrayer "Fajr" GoTime.zeroTime; mkPrayer "Sunrise" GoTime.zeroTime]
           [mkPrayer "Sunset" GoTime.zeroTime; mkPrayer "Sunrise" GoTime.zeroTime;
            mkPrayer "Fajr" GoTime.zeroTime; mkPrayer "Midnight" GoTime.zeroTime] (-1)).
  - simpl. lia.
  - vm_compute. reflexivity.
Defined.


(** ** More on the parser *)

Lemma mapLoop_overflow t (l : list (string * string)) : forall prayers i,
  (i <= length prayers)%nat -> (length prayers < i + length l)%nat ->
  exists e, foldRange (mapStep t) (prayers, i) l = Panic e /\
    (e = TimeParseFailed \/ e = SliceIndexOutOfRange) /\
    (Forall (fun kv => parseable kv.2) l -> e = SliceIndexOutOfRange).
Proof.
  induction l as [|[k v] l IH]; intros prayers i Hi Hlen; [simpl in Hlen; lia|].
  simpl in Hlen. cbn [foldRange].
  destruct (decide (parseable v)) as [Hv|Hv].
  - destruct (decide (i < length prayers)%nat) as [Lt|Ge].
    + rewrite mapStep_parseable by done. rsimpl.
      destruct (IH (<[i:=toPrayer t (k, v)]> prayers) (S i)) as (e & -> & He & Hall).
      { rewrite length_insert. lia. }
      { rewrite length_insert. lia. }
      exists e. split; [done|]. split; [done|].
      intros H. apply Hall. by inversion H.
    + exists SliceIndexOutOfRange. split; [|by split; [right|]].
      destruct Hv as [parsed Hp]. unfold mapStep. rewrite Hp. rsimpl.
      unfold sliceSet. by rewrite decide_False.
  - exists TimeParseFailed. rewrite mapStep_unparseable by done.
    split; [done|]. split; [by left|].
    intros H. inversion_clear H as [|? ? Hv' _]. by destruct Hv.
Qed.

(** X4: a map of more than five entries never converts: [MapToPrayers]
    panics, at the sixth write into its slice of five when every value
    parses, and otherwise at that write or at a value that does not
    parse, whichever the iteration meets first. *)
Theorem MapToPrayers_overflow r m t :
  fair r -> (5 < size m)%nat ->
  exists e, MapToPrayers r m t = Panic e /\
    (e = TimeParseFailed \/ e = SliceIndexOutOfRange) /\
    (map_Forall (fun _ v => parseable v) m -> e = SliceIndexOutOfRange).
Proof.
  intros F L. unfold MapToPrayers. cbv zeta.
  specialize (F _ m).
  destruct (mapLoop_overflow t (rangeOf r m) (replicate 5 zeroPrayer) 0)
    as (e & -> & He & Hall).
  { lia. }
  { rewrite length_replicate, F, length_map_to_list. lia. }
  exists e. split; [done|]. split; [done|].
  intros P. apply Hall. rewrite F. apply map_Forall_to_list in P.
  eapply Forall_impl; [exact P|]. by intros [k v].
Qed.

Lemma MapToPrayers_overflow_witness :
  exists e, MapToPrayers rangeSorted sixTimings sampleNoon = Panic e /\
    (e = TimeParseFailed \/ e = SliceIndexOutOfRange) /\
    (map_Forall (fun _ v => parseable v) sixTimings -> e = SliceIndexOutOfRange).
Proof.
  apply (MapToPrayers_overflow rangeSorted sixTimings sampleNoon).
  - apply fair_rangeSorted.
  - vm_compute. lia.
Defined.

Lemma filterSpec_insert_other pm k v :
  isPrayerName k = false -> filterSpec (<[k:=v]> pm) = filterSpec pm.
Proof.
  intros N. apply map_eq. intros j. rewrite !lookup_filterSpec.
  destruct (isPrayerName j) eqn:Nj; [|done].
  rewrite lookup_insert_ne; [done|]. intros ->. congruence.
Qed.

Lemma stringsOnly_insert_other pm k v :
  isPrayerName k = false -> stringsOnly (<[k:=v]> pm) <-> stringsOnly pm.
Proof.
  intros N. unfold stringsOnly. split.
  - intros H j x Hj Nj. apply (H j x); [|done].
    rewrite lookup_insert_ne; [done|]. intros ->. congruence.
  - intros H j x Hj Nj. apply (H j x); [|done].
    rewrite lookup_insert_ne in Hj; [done|]. intros ->. congruence.
Qed.

(** X5: [FilterPrayers] looks at nothing but the five prayer names: an
    entry under any other key, whatever its value, string or not, changes
    neither the map it returns nor whether it panics. *)
Theorem FilterPrayers_ignores_others r r' pm k v :
  fair r -> fair r' -> isPrayerName k = false ->
  FilterPrayers r (<[k:=v]> pm) = FilterPrayers r' pm.
Proof.
  intros F F' N. rewrite !FilterPrayers_fair by done. unfold FilterPrayers_spec.
  pose proof (stringsOnly_insert_other pm k v N) as S.
  destruct (decide (stringsOnly (<[k:=v]> pm))), (decide (stringsOnly pm)); try tauto.
  by rewrite filterSpec_insert_other.
Qed.

Lemma FilterPrayers_ignores_others_witness :
  FilterPrayers rangeSorted (<["Sunrise" := JNumber "550"]> sampleTimings)
  = FilterPrayers rangeReversed sampleTimings.
Proof.
  apply (FilterPrayers_ignores_others rangeSorted rangeReversed sampleTimings
           "Sunrise" (JNumber "550")).
  - apply fair_rangeSorted.
  - apply fair_rangeReversed.
  - reflexivity.
Defined.

Lemma dataGet_panic Data i e : dataGet Data i = Panic e -> e = DayIndexOutOfRange.
Proof.
  unfold dataGet. destruct (i <? 0); [by intros [= <-]|].
  destruct (Data !! Z.to_nat i); [discriminate|by intros [= <-]].
Qed.

Lemma assertObject_panic v e : assertObject v = Panic e -> e = TypeAssertionFailed.
Proof. destruct v as [[]|]; simpl; try discriminate; by intros [= <-]. Qed.

Lemma rbind_Panic_inv {A B} (r : result A) (k : A -> result B) e :
  r ≫= k = Panic e -> r = Panic e \/ exists a, r = Ok a /\ k a = Panic e.
Proof.
  destruct r as [a|e']; [right; by exists a|].
  intros [= <-]. by left.
Qed.

(** X6: the parser either returns exactly five prayers, named Fajr,
    Dhuhr, Asr, Maghrib, Isha in this order, or panics, and its panics are
    of five kinds only: the JSON does not decode, the day is outside the
    array, a value has not the type asserted, a time string does not
    parse, or a prayer is missing and [Less] indexes its empty name. It
    never writes outside its slice. *)
Theorem ParseTimings_outcomes unmarshal r data t :
  fair r ->
  match ParseTimings unmarshal r data t with
  | Ok prayers => Name <$> prayers = prayerNames
  | Panic e =>
      e = JsonError \/ e = DayIndexOutOfRange \/ e = TypeAssertionFailed \/
      e = TimeParseFailed \/ e = StringIndexOutOfRange
  end.
Proof.
  intros F. destruct (ParseTimings unmarshal r data t) as [prayers|e] eqn:E.
  { destruct (ParseTimings_Ok_inv _ _ _ _ _ F E) as (m & -> & _). reflexivity. }
  rewrite ParseTimings_fair in E by exact F. unfold ParseTimings_spec in E.
  apply rbind_Panic_inv in E as [H|(Data & _ & H)].
  { destruct (unmarshal data); [discriminate|]. injection H as <-. tauto. }
  apply rbind_Panic_inv in H as [H|(entry & _ & H)].
  { apply dataGet_panic in H. tauto. }
  apply rbind_Panic_inv in H as [H|(todayData & _ & H)].
  { apply assertObject_panic in H. tauto. }
  apply rbind_Panic_inv in H as [H|(pm & _ & H)].
  { apply assertObject_panic in H. tauto. }
  apply rbind_Panic_inv in H as [H|(m & _ & H)].
  { unfold FilterPrayers_spec in H. destruct (decide _); [discriminate|].
    injection H as <-. tauto. }
  unfold MapToPrayers_spec in H.
  repeat destruct (decide _); try discriminate; injection H as <-; tauto.
Qed.

Lemma ParseTimings_outcomes_witness :
  match ParseTimings sampleUnmarshal rangeSorted "june-no-asr" sampleNoon with
  | Ok prayers => Name <$> prayers = prayerNames
  | Panic e =>
      e = JsonError \/ e = DayIndexOutOfRange \/ e = TypeAssertionFailed \/
      e = TimeParseFailed \/ e = StringIndexOutOfRange
  end.
Proof.
  apply (ParseTimings_outcomes sampleUnmarshal rangeSorted "june-no-asr" sampleNoon).
  apply fair_rangeSorted.
Defined.

Lemma absSec_timeOfDay d h mi z :
  GoTime.absSec
    (GoTime.mkTime (((d - GoTime.unixEpochDays) * 86400 + h * 3600 + mi * 60 - z)
                    * 1000000000) z)
  = d * 86400 + (h * 3600 + mi * 60).
Proof.
  unfold GoTime.absSec. cbn [GoTime.nanos GoTime.offset].
  unfold GoTime.unixEpochDays, GoTime.secondsPerDay.
  rewrite Z.div_mul by lia. lia.
Qed.

Lemma dateOf_timeOfDay d h mi z y yd :
  0 <= h < 24 -> 0 <= mi < 60 ->
  GoTime.yearOfDays d = (y, yd) ->
  GoTime.dateOf
    (GoTime.mkTime (((d - GoTime.unixEpochDays) * 86400 + h * 3600 + mi * 60 - z)
                    * 1000000000) z)
  = (let '(m, dd) := GoTime.monthOfYday y yd in (y, m, dd)).
Proof.
  intros Hh Hmi Hy. unfold GoTime.dateOf. rewrite absSec_timeOfDay.
  unfold GoTime.secondsPerDay.
  rewrite Z.div_add_l by lia. rewrite (Z.div_small (h * 3600 + mi * 60)) by lia.
  rewrite Z.add_0_r, Hy. reflexivity.
Qed.

Lemma clockOf_timeOfDay d h mi z :
  0 <= h < 24 -> 0 <= mi < 60 ->
  GoTime.clockOf
    (GoTime.mkTime (((d - GoTime.unixEpochDays) * 86400 + h * 3600 + mi * 60 - z)
                    * 1000000000) z)
  = (h, mi, 0).
Proof.
  intros Hh Hmi. unfold GoTime.clockOf. rewrite absSec_timeOfDay.
  unfold GoTime.secondsPerDay. cbv zeta.
  replace ((d * 86400 + (h * 3600 + mi * 60)) mod 86400) with (h * 3600 + mi * 60)
    by (Z.div_mod_to_equations; lia).
  f_equal; [f_equal|]; Z.div_mod_to_equations; lia.
Qed.

Lemma Date_timeOfDay h mi z :
  GoTime.Date 0 1 1 h mi 0 0 z
  = GoTime.mkTime (((-366 - GoTime.unixEpochDays) * 86400 + h * 3600 + mi * 60 - z)
                   * 1000000000) z.
Proof.
  rewrite Date_nanos by lia.
  change (GoTime.daysBeforeMonth 0 1) with (-366). f_equal. lia.
Qed.

(** The time of a parsed string moved to the date of [t] is on that date,
    at the hour and minute of the string, in the zone of the string. *)
Lemma onDateOf_fields t value parsed :
  GoTime.Parse value = Some parsed ->
  GoTime.dateOf (onDateOf t parsed) = GoTime.dateOf t /\
  GoTime.clockOf (onDateOf t parsed) = GoTime.clockOf parsed /\
  GoTime.offset (onDateOf t parsed) = GoTime.offset parsed.
Proof.
  intros P. destruct (Parse_inv value parsed P) as (h & mi & z & -> & Hh & Hmi).
  rewrite onDateOf_nanos by done.
  rewrite Date_timeOfDay, !clockOf_timeOfDay by done.
  split; [|done].
  destruct (GoTime.yearOfDays (GoTime.absSec t / 86400)) as [y yd] eqn:Hy.
  rewrite (dateOf_timeOfDay _ h mi z y yd Hh Hmi Hy).
  unfold GoTime.dateOf, GoTime.secondsPerDay. by rewrite Hy.
Qed.

(** X7: every prayer that the parser returns for the date of [t] is taken
    from the string the day's timings have under its name, and its time is
    on the calendar date of [t] (as [t]'s own location shows it), at the
    hour and minute of that string, with zero seconds, in the zone of the
    string. *)
Theorem schedule_on_date unmarshal r data t pm prayers :
  fair r -> dayTimings unmarshal data t pm ->
  ParseTimings unmarshal r data t = Ok prayers ->
  Forall (fun p => exists s parsed,
            pm !! Name p = Some (JString s) /\
            GoTime.Parse s = Some parsed /\
            GoTime.dateOf (Time p) = GoTime.dateOf t /\
            GoTime.clockOf (Time p) = GoTime.clockOf parsed /\
            GoTime.offset (Time p) = GoTime.offset parsed) prayers.
Proof.
  intros F D E.
  rewrite ParseTimings_fair, (ParseTimings_spec_day _ _ _ pm) in E by done.
  apply rbind_Ok_inv in E as (m & Em & E).
  unfold FilterPrayers_spec in Em. destruct (decide (stringsOnly pm)) as [S|]; [|discriminate].
  injection Em as <-.
  apply MapToPrayers_spec_Ok in E as (-> & Pm & H5).
  unfold canonical. apply Forall_fmap.
  eapply Forall_impl; [exact H5|]. intros k [s Hs].
  unfold compose, toPrayer. cbn [Name Time fst snd].
  rewrite Hs. cbn [default id].
  destruct (Pm k s Hs) as [parsed Hp]. rewrite Hp. cbn [default id].
  exists s, parsed. split; [|split; [done|by apply (onDateOf_fields t s)]].
  rewrite lookup_filterSpec in Hs. destruct (isPrayerName k); [|done].
  destruct (pm !! k) as [v|]; [|discriminate].
  destruct v; simpl in Hs; try discriminate. by injection Hs as ->.
Qed.

Lemma schedule_on_date_witness :
  Forall (fun p => exists s parsed,
            sampleTimings !! Name p = Some (JString s) /\
            GoTime.Parse s = Some parsed /\
            GoTime.dateOf (Time p) = GoTime.dateOf sampleNoon /\
            GoTime.clockOf (Time p) = GoTime.clockOf parsed /\
            GoTime.offset (Time p) = GoTime.offset parsed) (sampleSchedule 2).
Proof.
  apply (schedule_on_date sampleUnmarshal rangeReversed "june" sampleNoon sampleTimings).
  - apply fair_rangeReversed.
  - apply sample_dayTimings.
  - vm_compute. reflexivity.
Defined.

(** ** More on the timings cache *)

(** X8: whatever its outcome, [DownloadTimings] keeps every file that
    exists, with its content, the file of the date included; it touches no
    path but that of the date; and it makes at most one request, for the
    month of the date. *)
Theorem DownloadTimings_frame cfg env t w :
  let w' := (DownloadTimings cfg env t w).2 in
  (forall p c, files w !! p = Some c -> files w' !! p = Some c) /\
  (forall p, p <> timingsPathOf cfg t -> files w' !! p = files w !! p) /\
  (requests w' = requests w \/ requests w' = requestUrlOf cfg t :: requests w).
Proof.
  unfold DownloadTimings. io.
  destruct (bool_decide (files w !! timingsPathOf cfg t = None)) eqn:B.
  - apply bool_decide_eq_true_1 in B.
    destruct (httpGet env (requestUrlOf cfg t)) as [resp|];
      [destruct (creatable env (timingsPathOf cfg t))|]; io; cbn [snd files requests].
    + split; [|split; [|by right]].
      * intros p c Hp. rewrite !lookup_insert_ne; [done|congruence..].
      * intros p Hp. by rewrite !lookup_insert_ne.
    + split; [done|]. split; [done|by right].
    + split; [done|]. split; [done|by right].
  - cbn [snd]. split; [done|]. split; [done|by left].
Qed.

Lemma DownloadTimings_Ok_inv cfg env t w p w1 :
  DownloadTimings cfg env t w = (Ok p, w1) ->
  p = timingsPathOf cfg t /\ is_Some (files w1 !! timingsPathOf cfg t).
Proof.
  unfold DownloadTimings. io.
  destruct (bool_decide (files w !! timingsPathOf cfg t = None)) eqn:B.
  - destruct (httpGet env (requestUrlOf cfg t)) as [resp|];
      [destruct (creatable env (timingsPathOf cfg t))|]; io; try discriminate.
    intros [= <- <-]. split; [done|]. cbn [files].
    rewrite lookup_insert_eq. by eexists.
  - apply bool_decide_eq_false_1 in B. intros [= <- <-]. split; [done|].
    by apply not_eq_None_Some.
Qed.

Lemma timingsPathOf_date cfg t t' :
  GoTime.dateOf t' = GoTime.dateOf t -> timingsPathOf cfg t' = timingsPathOf cfg t.
Proof. intros H. unfold timingsPathOf, GoTime.FormatDateOnly. by rewrite H. Qed.

(** X9: once [DownloadTimings] has returned for a date, every later call
    for a time of the same calendar date returns the same path and leaves
    the world as it is, whatever the network or the storage would now
    answer: no request is made again. *)
Theorem DownloadTimings_again cfg env env' t t' w p w1 :
  DownloadTimings cfg env t w = (Ok p, w1) ->
  GoTime.dateOf t' = GoTime.dateOf t ->
  DownloadTimings cfg env' t' w1 = (Ok p, w1).
Proof.
  intros E D. apply DownloadTimings_Ok_inv in E as [-> [c Hc]].
  rewrite <- (timingsPathOf_date cfg t t' D) in *.
  by apply (DownloadTimings_hit cfg env' t' w1 c).
Qed.

(** X10: when the file of the date is absent, the provider answers, and
    the file cannot be created, [DownloadTimings] panics at [os.Create]:
    the request has been made, and nothing is stored. *)
Theorem DownloadTimings_create_fails cfg env t w resp :
  files w !! timingsPathOf cfg t = None ->
  httpGet env (requestUrlOf cfg t) = Some resp ->
  creatable env (timingsPathOf cfg t) = false ->
  exists w',
    DownloadTimings cfg env t w = (Panic CreateFailed, w') /\
    files w' = files w /\
    requests w' = requestUrlOf cfg t :: requests w.
Proof.
  intros H G C. unfold DownloadTimings. io.
  rewrite bool_decide_eq_true_2 by exact H. rewrite G, C. io.
  eexists. split; [reflexivity|]. done.
Qed.

(** ** More on the schedule of a day *)

(** X11: when the file of the date exists, [PrayerTimings] is the parser
    applied to its content, and the world is left as it is: a cached
    payload is never fetched again, not even one that does not decode or
    lacks the day, which therefore fails at every call. *)
Theorem PrayerTimings_cached cfg env t w data :
  files w !! timingsPathOf cfg t = Some data ->
  PrayerTimings cfg env t w
  = (ParseTimings (unmarshal env) (ranger env) data t, w).
Proof.
  intros H. unfold PrayerTimings. unfold mbind at 1, IO_bind.
  rewrite (DownloadTimings_hit cfg env t w data H). io. by rewrite H.
Qed.

(** X12: whenever [PrayerTimings] returns, it returns exactly five
    prayers, named Fajr, Dhuhr, Asr, Maghrib, Isha in this order, and the
    file of the date exists afterwards. *)
Theorem PrayerTimings_returns cfg env t w prayers w' :
  fair (ranger env) ->
  PrayerTimings cfg env t w = (Ok prayers, w') ->
  Name <$> prayers = prayerNames /\ length prayers = 5%nat /\
  is_Some (files w' !! timingsPathOf cfg t).
Proof.
  intros F E.
  assert (Hn : Name <$> prayers = prayerNames).
  { destruct (PrayerTimings_Ok_inv cfg env t w prayers w' E) as [data P].
    destruct (ParseTimings_Ok_inv _ _ _ _ _ F P) as (m & -> & _). reflexivity. }
  split; [exact Hn|]. split.
  { rewrite <- (length_fmap Name), Hn. reflexivity. }
  revert E. unfold PrayerTimings. unfold mbind at 1, IO_bind.
  destruct (DownloadTimings cfg env t w) as [[path|e] w1] eqn:E1; [|discriminate].
  apply DownloadTimings_Ok_inv in E1 as [-> Hs].
  io. destruct (files w1 !! timingsPathOf cfg t) eqn:Ef; [|discriminate].
  intros [= _ <-]. by rewrite Ef.
Qed.

Lemma DownloadTimings_again_witness :
  DownloadTimings defaultConfig (sampleEnv sampleNoon) sampleEvening
    (DownloadTimings defaultConfig (sampleEnv sampleNoon) sampleEvening emptyWorld).2
  = (Ok (timingsPathOf defaultConfig sampleEvening),
     (DownloadTimings defaultConfig (sampleEnv sampleNoon) sampleEvening emptyWorld).2).
Proof.
  apply (DownloadTimings_again defaultConfig (sampleEnv sampleNoon) (sampleEnv sampleNoon)
           sampleEvening sampleEvening emptyWorld).
  - reflexivity.
  - reflexivity.
Defined.

Lemma DownloadTimings_create_fails_witness :
  exists w',
    DownloadTimings defaultConfig readOnlyEnv sampleNoon emptyWorld
    = (Panic CreateFailed, w') /\
    files w' = files emptyWorld /\
    requests w' = requestUrlOf defaultConfig sampleNoon :: requests emptyWorld.
Proof.
  apply (DownloadTimings_create_fails defaultConfig readOnlyEnv sampleNoon emptyWorld
           {| StatusCode := 200; Body := "june" |}).
  - apply lookup_empty.
  - reflexivity.
  - reflexivity.
Defined.

Lemma PrayerTimings_cached_witness :
  PrayerTimings defaultConfig (sampleEnv sampleNoon) sampleNoon cachedWorld
  = (ParseTimings sampleUnmarshal rangeReversed "june" sampleNoon, cachedWorld).
Proof.
  apply (PrayerTimings_cached defaultConfig (sampleEnv sampleNoon) sampleNoon cachedWorld
           "june").
  apply lookup_singleton_eq.
Defined.

Lemma PrayerTimings_returns_witness :
  Name <$> sampleSchedule 2 = prayerNames /\ length (sampleSchedule 2) = 5%nat /\
  is_Some (files cachedWorld !! timingsPathOf defaultConfig sampleNoon).
Proof.
  apply (PrayerTimings_returns defaultConfig (sampleEnv sampleNoon) sampleNoon cachedWorld
           (sampleSchedule 2) cachedWorld).
  - apply fair_rangeReversed.
  - vm_compute. reflexivity.
Defined.

(** ** More on the prayer clock *)

(** What the scan returns, with a clock that moves: the prayers before
    the one returned were each not later than the reading taken for it. *)
Lemma scanPrayers_Some env prayers : forall w v w1,
  scanPrayers env prayers w = (Ok (Some v), w1) ->
  exists pre post,
    prayers = pre ++ v :: post /\
    (forall i p, pre !! i = Some p ->
       GoTime.Before (clock env (clockReads w + i)) (Time p) = false) /\
    GoTime.Before (clock env (clockReads w + length pre)) (Time v) = true /\
    clockReads w1 = (clockReads w + length pre + 1)%nat /\
    files w1 = files w /\ requests w1 = requests w /\ stdout w1 = stdout w /\
    sounds w1 = sounds w /\ display w1 = display w.
Proof.
  induction prayers as [|p prayers IH]; intros w v w1; [discriminate|].
  cbn [scanPrayers]. io.
  destruct (GoTime.Before (clock env (clockReads w)) (Time p)) eqn:B.
  - intros [= <- <-]. exists [], prayers. cbn [length app clockReads files requests stdout sounds display].
    rewrite Nat.add_0_r. split; [done|]. split; [by intros i q Hq|].
    split; [done|]. split; [lia|]. done.
  - intros E. apply IH in E as (pre & post & -> & Hpre & Hv & Hc & Hrest).
    cbn [clockReads files requests stdout sounds display] in *.
    exists (p :: pre), post. split; [done|]. split.
    { intros [|i] q Hq.
      - injection Hq as <-. by rewrite Nat.add_0_r.
      - replace (clockReads w + S i)%nat with (S (clockReads w) + i)%nat by lia.
        by apply Hpre. }
    cbn [length].
    replace (clockReads w + S (length pre))%nat with (S (clockReads w) + length pre)%nat by lia.
    split; [done|]. split; [lia|]. done.
Qed.

Lemma scanPrayers_total env prayers : forall w,
  exists found w1, scanPrayers env prayers w = (Ok found, w1).
Proof.
  induction prayers as [|p prayers IH]; intros w; [by eexists _, _|].
  cbn [scanPrayers]. io. destruct (GoTime.Before _ _); [by eexists _, _|].
  apply IH.
Qed.

(** X13: the held schedule keeps its shape. If it has the five prayers in
    canonical order before a call of [NextPrayer] that returns, it has
    them after; the prayer returned is one of the schedule after the call;
    without rollover the schedule is unchanged, and with rollover the
    prayer returned is Fajr. *)
Theorem NextPrayer_keeps_shape cfg env prayers w e changed held w' :
  fair (ranger env) ->
  Name <$> prayers = prayerNames ->
  NextPrayer cfg env prayers w = (Ok (e, changed, held), w') ->
  Name <$> held = prayerNames /\ e ∈ held /\
  (changed = false -> held = prayers) /\
  (changed = true -> Name e = "Fajr").
Proof.
  intros F Hn. unfold NextPrayer. unfold mbind at 1, IO_bind.
  destruct (scanPrayers env prayers w) as [[[v|]|e0] w1] eqn:Es; [| |discriminate].
  - intros [= <- <- <- <-].
    apply scanPrayers_Some in Es as (pre & post & -> & _).
    split; [done|]. split; [|by split]. apply elem_of_app. right. left.
  - unfold mbind at 1, IO_bind, Now at 1. unfold mbind at 1, IO_bind.
    destruct (PrayerTimings cfg env _ _) as [[new|e0] w3] eqn:E3; [|discriminate].
    destruct (PrayerTimings_Ok_inv _ _ _ _ _ _ E3) as [data P].
    destruct (ParseTimings_Ok_inv _ _ _ _ _ F P) as (m & -> & _).
    rewrite copySlice_same_length
      by (rewrite <- (length_fmap Name prayers), Hn; reflexivity).
    io. unfold sliceGet. rewrite canonical_head.
    intros [= <- <- <- <-].
    split; [done|]. split; [|by split].
    apply list_elem_of_lookup. exists 0%nat. apply canonical_head.
Qed.

(** X14: on an empty schedule [NextPrayer] never returns: it rolls over,
    [copy] copies nothing into the empty slice, and [prayers[0]] is out of
    range, unless the rollover has panicked before. *)
Theorem NextPrayer_empty cfg env w :
  exists e w', NextPrayer cfg env [] w = (Panic e, w').
Proof.
  unfold NextPrayer. cbn [scanPrayers]. io.
  destruct (PrayerTimings cfg env _ _) as [[new|e0] w3]; [|by eexists _, _].
  io. unfold copySlice. cbn [length take app drop]. rewrite drop_nil.
  by eexists _, _.
Qed.

(** X15: when no held prayer is later than the clock, the file of the
    next day is absent and the request fails, [NextPrayer] panics at the
    fetch; nothing has been stored. *)
Theorem NextPrayer_rollover_offline cfg env now prayers w :
  let tomorrow := GoTime.AddDate now 0 0 1 in
  frozen env now ->
  Forall (fun p => GoTime.nanos (Time p) <= GoTime.nanos now) prayers ->
  files w !! timingsPathOf cfg tomorrow = None ->
  httpGet env (requestUrlOf cfg tomorrow) = None ->
  exists w',
    NextPrayer cfg env prayers w = (Panic HttpGetFailed, w') /\
    files w' = files w.
Proof.
  intros tomorrow Fz H Hf G.
  destruct (scanPrayers_frozen_none env now prayers w Fz H) as (w1 & E1 & Hf1 & _).
  set (w2 := {| clockReads := S (clockReads w1); files := files w1;
                requests := requests w1; stdout := stdout w1;
                sounds := sounds w1; display := display w1 |}).
  destruct (DownloadTimings_neterr cfg env tomorrow w2) as (w3 & E3 & Hf3 & _).
  { cbn [files w2]. by rewrite Hf1. }
  { exact G. }
  exists w3. split; [|cbn [files w2] in Hf3; congruence].
  unfold NextPrayer. unfold mbind at 1, IO_bind. rewrite E1.
  unfold mbind at 1, IO_bind. unfold Now at 1. rewrite Fz. fold w2. fold tomorrow.
  unfold mbind at 1, IO_bind. unfold PrayerTimings.
  unfold mbind at 1, IO_bind. rewrite E3. reflexivity.
Qed.

(** X16: a call of [NextPrayer] that reports no change has rolled nothing
    over: the schedule is unchanged, the cache and the network are not
    touched, the clock has been read once per prayer up to the one
    returned, which was later than the reading taken for it, while each
    prayer before it was not. *)
Theorem NextPrayer_unchanged cfg env prayers w e held w' :
  NextPrayer cfg env prayers w = (Ok (e, false, held), w') ->
  held = prayers /\
  (exists pre post,
     prayers = pre ++ e :: post /\
     (forall i p, pre !! i = Some p ->
        GoTime.Before (clock env (clockReads w + i)) (Time p) = false) /\
     GoTime.Before (clock env (clockReads w + length pre)) (Time e) = true /\
     clockReads w' = (clockReads w + length pre + 1)%nat) /\
  files w' = files w /\ requests w' = requests w.
Proof.
  unfold NextPrayer. unfold mbind at 1, IO_bind.
  destruct (scanPrayers env prayers w) as [[[v|]|e0] w1] eqn:Es; [| |discriminate].
  - intros [= <- <- <-].
    apply scanPrayers_Some in Es as (pre & post & Hp & Hpre & Hv & Hc & Hf & Hr & _).
    split; [done|]. split; [by exists pre, post|]. by split.
  - unfold mbind at 1, IO_bind, Now at 1. unfold mbind at 1, IO_bind.
    destruct (PrayerTimings cfg env _ _) as [[new|e0] w3]; [|discriminate].
    io. destruct (sliceGet _ 0); discriminate.
Qed.

Lemma NextPrayer_keeps_shape_witness :
  Name <$> sampleSchedule 2 = prayerNames /\ sampleFajr 2 ∈ sampleSchedule 2 /\
  (true = false -> sampleSchedule 2 = sampleSchedule 1) /\
  (true = true -> Name (sampleFajr 2) = "Fajr").
Proof.
  apply (NextPrayer_keeps_shape defaultConfig (sampleEnv sampleEvening) (sampleSchedule 1)
           emptyWorld (sampleFajr 2) true (sampleSchedule 2) rolledWorld).
  - apply fair_rangeReversed.
  - reflexivity.
  - vm_compute. reflexivity.
Defined.

Lemma NextPrayer_rollover_offline_witness :
  exists w',
    NextPrayer defaultConfig offlineEnv (sampleSchedule 1) emptyWorld
    = (Panic HttpGetFailed, w') /\
    files w' = files emptyWorld.
Proof.
  apply (NextPrayer_rollover_offline defaultConfig offlineEnv sampleEvening
           (sampleSchedule 1) emptyWorld).
  - intros k. reflexivity.
  - repeat constructor; vm_compute; discriminate.
  - apply lookup_empty.
  - reflexivity.
Defined.

Lemma NextPrayer_unchanged_witness :
  sampleSchedule 2 = sampleSchedule 2 /\
  (exists pre post,
     sampleSchedule 2 = pre ++ sampleDhuhr 2 :: post /\
     (forall i p, pre !! i = Some p ->
        GoTime.Before (clock (sampleEnv secondToDhuhr) (clockReads emptyWorld + i))
                      (Time p) = false) /\
     GoTime.Before (clock (sampleEnv secondToDhuhr) (clockReads emptyWorld + length pre))
                   (Time (sampleDhuhr 2)) = true /\
     clockReads (afterReads 2) = (clockReads emptyWorld + length pre + 1)%nat) /\
  files (afterReads 2) = files emptyWorld /\ requests (afterReads 2) = requests emptyWorld.
Proof.
  apply (NextPrayer_unchanged defaultConfig (sampleEnv secondToDhuhr) (sampleSchedule 2)
           emptyWorld (sampleDhuhr 2) (sampleSchedule 2) (afterReads 2)).
  vm_compute. reflexivity.
Defined.

(** ** More on the timer *)

(** X17: the hours, minutes and seconds that [FormatNextPrayer] prints
    for a prayer add up to the time from the clock to the prayer, less its
    fraction of a second; minutes and seconds are below sixty in absolute
    value; none is negative when the prayer is ahead, and none is positive
    when it has passed, where the label shows a count below zero. *)
Theorem FormatNextPrayer_parts env p w :
  let rem := GoTime.Sub (Time p) (clock env (clockReads w)) in
  exists h m s w',
    FormatNextPrayer env p w = (Ok (ShowNextPrayer (Name p) h m s), w') /\
    h * GoTime.Hour + m * GoTime.Minute + s * GoTime.Second
      + Z.rem rem GoTime.Second = rem /\
    -60 < m < 60 /\ -60 < s < 60 /\
    (0 <= rem -> 0 <= h /\ 0 <= m /\ 0 <= s) /\
    (rem <= 0 -> h <= 0 /\ m <= 0 /\ s <= 0).
Proof.
  intros rem. unfold FormatNextPrayer. io. fold rem.
  eexists _, _, _, _. split; [reflexivity|].
  unfold GoTime.Hour, GoTime.Minute, GoTime.Second.
  generalize rem. clear. intros rem.
  Z.to_euclidean_division_equations. lia.
Qed.

Lemma scanPrayers_display env prayers : forall w,
  display (scanPrayers env prayers w).2 = display w.
Proof.
  induction prayers as [|p prayers IH]; intros w; [done|].
  cbn [scanPrayers]. io. destruct (GoTime.Before _ _); [done|].
  by rewrite IH.
Qed.

Lemma DownloadTimings_display cfg env t w :
  display (DownloadTimings cfg env t w).2 = display w.
Proof.
  unfold DownloadTimings. io.
  destruct (bool_decide _); [|done].
  destruct (httpGet env _); [|done]. destruct (creatable env _); done.
Qed.

Lemma PrayerTimings_display cfg env t w :
  display (PrayerTimings cfg env t w).2 = display w.
Proof.
  unfold PrayerTimings. unfold mbind at 1, IO_bind.
  pose proof (DownloadTimings_display cfg env t w) as H.
  destruct (DownloadTimings cfg env t w) as [[path|e] w1]; [|done].
  io. by destruct (files w1 !! path).
Qed.

Lemma NextPrayer_display cfg env prayers w :
  display (NextPrayer cfg env prayers w).2 = display w.
Proof.
  unfold NextPrayer. unfold mbind at 1, IO_bind.
  pose proof (scanPrayers_display env prayers w) as H.
  destruct (scanPrayers env prayers w) as [[[v|]|e] w1]; [done| |done].
  cbn [snd] in H.
  unfold mbind at 1, IO_bind, Now at 1.
  unfold mbind at 1, IO_bind.
  match goal with |- context [PrayerTimings cfg env ?t ?w2] =>
    pose proof (PrayerTimings_display cfg env t w2) as H2;
    destruct (PrayerTimings cfg env t w2) as [[new|e] w3]
  end; cbn [snd display] in H2.
  - io. destruct (sliceGet _ 0); cbn [snd]; congruence.
  - cbn [snd]. congruence.
Qed.

(** X18: a tick whose [NextPrayer] returns always ends by showing the
    label of the prayer returned, and before that shows the whole schedule
    again exactly when the schedule has changed; it shows nothing else,
    and hands the schedule of [NextPrayer] on. *)
Theorem timerAction_display cfg env prayers w np changed held w1 :
  NextPrayer cfg env prayers w = (Ok (np, changed, held), w1) ->
  exists w2 h m s,
    timerAction cfg env prayers w = (Ok held, w2) /\
    display w2 =
      ShowNextPrayer (Name np) h m s ::
      (if changed then [ShowTimings held] else []) ++ display w.
Proof.
  intros E.
  pose proof (NextPrayer_display cfg env prayers w) as S. rewrite E in S. simpl in S.
  unfold timerAction. unfold mbind at 1, IO_bind. rewrite E.
  unfold FormatNextPrayer. io.
  destruct changed; io;
    match goal with |- context [if ?a =? ?b then _ else _] => destruct (a =? b) end; io;
    match goal with |- context [if ?a =? ?b then _ else _] => destruct (a =? b) end; io;
    eexists _, _, _, _; (split; [reflexivity|]); cbn [display app]; by rewrite S.
Qed.

Lemma timerAction_display_witness :
  exists w2 h m s,
    timerAction defaultConfig (sampleEnv sampleEvening) (sampleSchedule 1) emptyWorld
    = (Ok (sampleSchedule 2), w2) /\
    display w2 =
      ShowNextPrayer (Name (sampleFajr 2)) h m s ::
      [ShowTimings (sampleSchedule 2)] ++ display emptyWorld.
Proof.
  apply (timerAction_display defaultConfig (sampleEnv sampleEvening) (sampleSchedule 1)
           emptyWorld (sampleFajr 2) true (sampleSchedule 2) rolledWorld).
  vm_compute. reflexivity.
Defined.

(** ** Malformed payloads and repeated fetches *)

(** X19: a payload that does not decode makes the parser panic at
    [json.Unmarshal]; one that decodes and has the day, but whose entry
    for the day is not an object with an object under ["timings"], makes
    it panic at the type assertion. Neither depends on the iteration
    order. *)
Theorem ParseTimings_malformed unmarshal r data t :
  (unmarshal data = None -> ParseTimings unmarshal r data t = Panic JsonError) /\
  (forall Data entry,
     unmarshal data = Some Data ->
     dataGet Data (GoTime.Day t - 1) = Ok entry ->
     (forall day pm, entry = JObject day -> day !! "timings" <> Some (JObject pm)) ->
     ParseTimings unmarshal r data t = Panic TypeAssertionFailed).
Proof.
  split.
  - intros H. unfold ParseTimings. by rewrite H.
  - intros Data entry HD He Hno. unfold ParseTimings.
    rewrite HD. cbv beta iota. rewrite rbind_Ok, He, rbind_Ok.
    destruct entry as [| | | | |day]; try reflexivity.
    rewrite assertObject_object, rbind_Ok.
    specialize (Hno day).
    destruct (day !! "timings") as [v|]; [|reflexivity].
    destruct v as [| | | | |pm]; try reflexivity.
    by destruct (Hno pm).
Qed.

(** X20: the cache is kept by day while the provider is asked by month:
    a call for a date whose file is absent sends the request of its month,
    the same for every date of that month, even when the file of another
    date of the month is in the cache, and stores the answer under its own
    date. *)
Theorem DownloadTimings_per_day cfg env t t' w resp :
  GoTime.Year t' = GoTime.Year t -> GoTime.Month t' = GoTime.Month t ->
  files w !! timingsPathOf cfg t' = None ->
  httpGet env (requestUrlOf cfg t) = Some resp ->
  creatable env (timingsPathOf cfg t') = true ->
  exists w2,
    DownloadTimings cfg env t' w = (Ok (timingsPathOf cfg t'), w2) /\
    requests w2 = requestUrlOf cfg t :: requests w /\
    files w2 = <[timingsPathOf cfg t' := Body resp]> (files w).
Proof.
  intros Hy Hm Hf G C.
  assert (U : requestUrlOf cfg t' = requestUrlOf cfg t)
    by (unfold requestUrlOf; by rewrite Hy, Hm).
  rewrite <- U in G.
  destruct (DownloadTimings_miss cfg env t' w resp Hf G C) as (w2 & E & Hf2 & Hr & _).
  exists w2. by rewrite <- U.
Qed.

Lemma ParseTimings_malformed_witness :
  ParseTimings sampleUnmarshal rangeSorted "july" sampleNoon = Panic JsonError /\
  ParseTimings nullsUnmarshal rangeSorted "june-nulls" sampleNoon
  = Panic TypeAssertionFailed.
Proof.
  split.
  - apply (proj1 (ParseTimings_malformed sampleUnmarshal rangeSorted "july" sampleNoon)).
    reflexivity.
  - apply (proj2 (ParseTimings_malformed nullsUnmarshal rangeSorted "june-nulls" sampleNoon)
             [JNull; JNull] JNull).
    + reflexivity.
    + reflexivity.
    + discriminate.
Defined.

Lemma DownloadTimings_frame_witness :
  files (DownloadTimings defaultConfig (sampleEnv sampleNoon) sampleEvening cachedWorld).2
    !! timingsPathOf defaultConfig sampleNoon = Some "june".
Proof.
  apply (proj1 (DownloadTimings_frame defaultConfig (sampleEnv sampleNoon) sampleEvening
                  cachedWorld)).
  apply lookup_singleton_eq.
Defined.

Lemma DownloadTimings_per_day_witness :
  exists w2,
    DownloadTimings defaultConfig (sampleEnv sampleNoon) sampleEvening cachedWorld
    = (Ok (timingsPathOf defaultConfig sampleEvening), w2) /\
    requests w2 = requestUrlOf defaultConfig sampleNoon :: requests cachedWorld /\
    files w2 = <[timingsPathOf defaultConfig sampleEvening := "june"]> (files cachedWorld).
Proof.
  apply (DownloadTimings_per_day defaultConfig (sampleEnv sampleNoon) sampleNoon
           sampleEvening cachedWorld {| StatusCode := 200; Body := "june" |}).
  - reflexivity.
  - reflexivity.
  - vm_compute. reflexivity.
  - reflexivity.
  - reflexivity.
Defined.
